(** * gocsi: the idempotency interceptor and the mock CSI service

    A shallow embedding of [interceptors_server_idemp.go] (package [gocsi])
    and of the controller half of the mock plug-in (package [service]),
    together with the properties of both that their specification states.

    The embedding is sequential.  One call of an interceptor procedure is a
    state transformer over

    - the interceptor's two lock tables,
    - a "world" on which the [IdempotencyProvider] and the downstream
      handler act (both may read and change it, which is also how a change
      made by a concurrent request between two queries is represented), and
    - a trace of the provider queries and handler invocations the call made.

    Go's [defer] is kept as an explicit stack of closures that is run in
    LIFO order when the body returns; a run-time panic inside a deferred
    closure is an outcome of its own. *)

From Stdlib Require Import ZArith NArith Lia DecimalString DecimalN.
From Stdlib Require DecimalPos.
From stdpp Require Import gmap strings list fin_maps.

Open Scope string_scope.

(** Go's [error] interface: [None] is the nil error. *)
Definition error : Type := string.

(** Go's [map[string]string]: [None] is the nil map. *)
Abbreviation gomap := (option (gmap string string)).

(* ===================================================================== *)
(** ** Package csi: the generated protobuf types the code manipulates     *)
(* ===================================================================== *)

Module csi.

(** Modelled from the spec: the generated Go type [csi.VolumeInfo] is not
    among the sources.  The spec calls it a record with, at minimum, an
    [id] field; the mock service also uses its capacity and attributes. *)
Record VolumeInfo := mkVolumeInfo {
  CapacityBytes : Z;
  Id : string;
  Attributes : gomap
}.

(** Modelled from the spec: the error codes of the generated per-RPC code
    enumerations.  Only the two codes the interceptor names are told apart;
    [OTHER_CODE n] is any other code of the enumeration. *)
Inductive ErrorCode :=
| OPERATION_PENDING_FOR_VOLUME
| VOLUME_DOES_NOT_EXIST
| OTHER_CODE (n : N).

(** Modelled from the spec: the payload of an RPC-specific error
    ([csi.Error_CreateVolumeError] and its five siblings), and of
    [csi.Error_GeneralError]. *)
Record RPCError := mkRPCError {
  ErrorCode_ : ErrorCode;
  ErrorDescription : string
}.

Record GeneralError := mkGeneralError {
  GeneralErrorCode : N;
  GeneralErrorDescription : string
}.

(** Modelled from the spec: the oneof [Value] of [csi.Error].  Every
    wrapper holds a pointer to its payload, [None] being the nil pointer. *)
Inductive isError_Value :=
| Error_GeneralError_ (GeneralError_ : option GeneralError)
| Error_CreateVolumeError_ (CreateVolumeError : option RPCError)
| Error_DeleteVolumeError_ (DeleteVolumeError : option RPCError)
| Error_ControllerPublishVolumeError_ (ControllerPublishVolumeError : option RPCError)
| Error_ControllerUnpublishVolumeError_ (ControllerUnpublishVolumeError : option RPCError)
| Error_NodePublishVolumeError_ (NodePublishVolumeError : option RPCError)
| Error_NodeUnpublishVolumeError_ (NodeUnpublishVolumeError : option RPCError).

Record Error := mkError { Value : option isError_Value }.

(** Modelled from the spec: the oneof [Reply] of every response message:
    either the RPC's result or an embedded [*csi.Error]. *)
Inductive isResponse_Reply (R : Type) :=
| Response_Result_ (Result : R)
| Response_Error (Error_ : option Error).
Arguments Response_Result_ {R} _.
Arguments Response_Error {R} _.

Record Response (R : Type) := mkResponse { Reply : option (isResponse_Reply R) }.
Arguments mkResponse {R} _.
Arguments Reply {R} _.

(** Modelled from the spec: the generated getter [GetError], which is safe
    on a nil receiver and answers nil unless the reply is the error
    variant. *)
Definition GetError {R} (m : option (Response R)) : option Error :=
  match m with
  | Some {| Reply := Some (Response_Error e) |} => e
  | _ => None
  end.

Definition GetResult {R} (m : option (Response R)) : option R :=
  match m with
  | Some {| Reply := Some (Response_Result_ r) |} => Some r
  | _ => None
  end.

Record CreateVolumeResponse_Result := { VolumeInfo_ : option VolumeInfo }.
Record ControllerPublishVolumeResponse_Result := { PublishVolumeInfo : gomap }.
Record DeleteVolumeResponse_Result := {}.
Record ControllerUnpublishVolumeResponse_Result := {}.
Record NodePublishVolumeResponse_Result := {}.
Record NodeUnpublishVolumeResponse_Result := {}.

Record ListVolumesResponse_Result_Entry := { EntryVolumeInfo : option VolumeInfo }.
Record ListVolumesResponse_Result := {
  Entries : list (option ListVolumesResponse_Result_Entry);
  NextToken : string
}.

Abbreviation CreateVolumeResponse := (Response CreateVolumeResponse_Result).
Abbreviation DeleteVolumeResponse := (Response DeleteVolumeResponse_Result).
Abbreviation ControllerPublishVolumeResponse := (Response ControllerPublishVolumeResponse_Result).
Abbreviation ControllerUnpublishVolumeResponse := (Response ControllerUnpublishVolumeResponse_Result).
Abbreviation NodePublishVolumeResponse := (Response NodePublishVolumeResponse_Result).
Abbreviation NodeUnpublishVolumeResponse := (Response NodeUnpublishVolumeResponse_Result).
Abbreviation ListVolumesResponse := (Response ListVolumesResponse_Result).

(** Modelled from the spec: the request messages, with the fields the two
    packages read. *)
Record CapacityRange := { RequiredBytes : Z; LimitBytes : Z }.
Record CreateVolumeRequest := {
  Name : string;
  CapacityRange_ : option CapacityRange
}.
Record DeleteVolumeRequest := { DeleteVolumeId : string }.
Record ControllerPublishVolumeRequest := {
  ControllerPublishVolumeId : string;
  ControllerPublishNodeId : string
}.
Record ControllerUnpublishVolumeRequest := {
  ControllerUnpublishVolumeId : string;
  ControllerUnpublishNodeId : string
}.
Record NodePublishVolumeRequest := {
  NodePublishVolumeId : string;
  NodePublishVolumeInfo : gomap;
  NodePublishTargetPath : string
}.
Record NodeUnpublishVolumeRequest := {
  NodeUnpublishVolumeId : string;
  NodeUnpublishTargetPath : string
}.
Record ListVolumesRequest := { MaxEntries : Z; StartingToken : string }.

End csi.

(* ===================================================================== *)
(** ** Package gocsi: the idempotency interceptor                         *)
(* ===================================================================== *)

Module gocsi.
Import csi.

(** A value of Go's [interface{}] as the interceptor meets it: the nil
    interface, a pointer to one of the six response messages ([None] being
    the nil pointer of that type), or a value of some other dynamic type. *)
Inductive iface :=
| nil_iface
| CreateVolumeResponse_ptr (p : option CreateVolumeResponse)
| DeleteVolumeResponse_ptr (p : option DeleteVolumeResponse)
| ControllerPublishVolumeResponse_ptr (p : option ControllerPublishVolumeResponse)
| ControllerUnpublishVolumeResponse_ptr (p : option ControllerUnpublishVolumeResponse)
| NodePublishVolumeResponse_ptr (p : option NodePublishVolumeResponse)
| NodeUnpublishVolumeResponse_ptr (p : option NodeUnpublishVolumeResponse)
| other_iface.

(** The request handed to the downstream handler, also an [interface{}]. *)
Inductive Request :=
| CreateVolumeRequest_ptr (r : CreateVolumeRequest)
| DeleteVolumeRequest_ptr (r : DeleteVolumeRequest)
| ControllerPublishVolumeRequest_ptr (r : ControllerPublishVolumeRequest)
| ControllerUnpublishVolumeRequest_ptr (r : ControllerUnpublishVolumeRequest)
| NodePublishVolumeRequest_ptr (r : NodePublishVolumeRequest)
| NodeUnpublishVolumeRequest_ptr (r : NodeUnpublishVolumeRequest)
| other_request.

(** [grpc.UnaryServerInfo]: only [FullMethod] is read. *)
Record UnaryServerInfo := { FullMethod : string }.

(** The six single-value type assertions [res.(XResponse)] followed by
    [GetError()].  The outer [None] is the run-time panic of a failed
    assertion (nil interface or another dynamic type). *)
Definition CreateVolumeResponse_GetError (res : iface) : option (option Error) :=
  match res with CreateVolumeResponse_ptr p => Some (GetError p) | _ => None end.
Definition DeleteVolumeResponse_GetError (res : iface) : option (option Error) :=
  match res with DeleteVolumeResponse_ptr p => Some (GetError p) | _ => None end.
Definition ControllerPublishVolumeResponse_GetError (res : iface) : option (option Error) :=
  match res with ControllerPublishVolumeResponse_ptr p => Some (GetError p) | _ => None end.
Definition ControllerUnpublishVolumeResponse_GetError (res : iface) : option (option Error) :=
  match res with ControllerUnpublishVolumeResponse_ptr p => Some (GetError p) | _ => None end.
Definition NodePublishVolumeResponse_GetError (res : iface) : option (option Error) :=
  match res with NodePublishVolumeResponse_ptr p => Some (GetError p) | _ => None end.
Definition NodeUnpublishVolumeResponse_GetError (res : iface) : option (option Error) :=
  match res with NodeUnpublishVolumeResponse_ptr p => Some (GetError p) | _ => None end.

(** Modelled from the spec: the reply constructors [ErrCreateVolume],
    [ErrDeleteVolume], ... of package gocsi are not among the sources.  Each
    returns the RPC's own reply carrying an embedded error of the RPC's own
    error type with the given code and message. *)
Definition ErrReply {R} (wrap : option RPCError -> isError_Value)
    (code : ErrorCode) (msg : string) : option (Response R) :=
  let e := mkError (Some (wrap (Some (mkRPCError code msg)))) in
  Some (mkResponse (Some (Response_Error (Some e)))).

Definition ErrCreateVolume code msg : option CreateVolumeResponse :=
  ErrReply Error_CreateVolumeError_ code msg.
Definition ErrDeleteVolume code msg : option DeleteVolumeResponse :=
  ErrReply Error_DeleteVolumeError_ code msg.
Definition ErrControllerPublishVolume code msg : option ControllerPublishVolumeResponse :=
  ErrReply Error_ControllerPublishVolumeError_ code msg.
Definition ErrControllerUnpublishVolume code msg : option ControllerUnpublishVolumeResponse :=
  ErrReply Error_ControllerUnpublishVolumeError_ code msg.
Definition ErrNodePublishVolume code msg : option NodePublishVolumeResponse :=
  ErrReply Error_NodePublishVolumeError_ code msg.
Definition ErrNodeUnpublishVolume code msg : option NodeUnpublishVolumeResponse :=
  ErrReply Error_NodeUnpublishVolumeError_ code msg.

(** Modelled from the spec: [ErrListVolumes], likewise absent; the CSI
    error message has no ListVolumes-specific variant, so the embedded error
    is a general error with the given numeric code and message. *)
Definition ErrListVolumes (code : N) (msg : string) : option ListVolumesResponse :=
  let e := mkError (Some (Error_GeneralError_ (Some (mkGeneralError code msg)))) in
  Some (mkResponse (Some (Response_Error (Some e)))).

(** [idempIntercOpts]. *)
Record idempIntercOpts := {
  timeout : Z;
  requireVolume : bool
}.

(** [volLockInfo]: the embedded [MutexWithTryLock], of which the model keeps
    whether it is held, and the method-in-error set. *)
Record volLockInfo := mkVolLockInfo {
  held : bool;
  methodInErr : gset string
}.

(** [idempotencyInterceptor], without the provider (a type class below) and
    without the two table mutexes, which a sequential model never contends. *)
Record idempotencyInterceptor := mkInterceptor {
  volIDLocks : gmap string volLockInfo;
  volNameLocks : gmap string volLockInfo;
  opts : idempIntercOpts
}.

(** A [*volLockInfo]: the table and key of the record pointed to.  Records
    are never removed from a table, so the pair stays valid. *)
Inductive lockPtr :=
| idLockPtr (id : string)
| nameLockPtr (name : string).

Definition freshLock : volLockInfo := mkVolLockInfo false ∅.

(** Dereferencing a [*volLockInfo]. *)
Definition lockOf (l : lockPtr) (i : idempotencyInterceptor) : volLockInfo :=
  match l with
  | idLockPtr id => default freshLock (volIDLocks i !! id)
  | nameLockPtr name => default freshLock (volNameLocks i !! name)
  end.

(** Writing through a [*volLockInfo]. *)
Definition setLock (l : lockPtr) (v : volLockInfo)
    (i : idempotencyInterceptor) : idempotencyInterceptor :=
  match l with
  | idLockPtr id =>
      mkInterceptor (<[id := v]> (volIDLocks i)) (volNameLocks i) (opts i)
  | nameLockPtr name =>
      mkInterceptor (volIDLocks i) (<[name := v]> (volNameLocks i)) (opts i)
  end.

(** [lock.methodInErr[m] = struct{}{}] and [delete(lock.methodInErr, m)]. *)
Definition markInErr (l : lockPtr) (m : string)
    (i : idempotencyInterceptor) : idempotencyInterceptor :=
  setLock l (mkVolLockInfo (held (lockOf l i)) ({[m]} ∪ methodInErr (lockOf l i))) i.

Definition unmarkInErr (l : lockPtr) (m : string)
    (i : idempotencyInterceptor) : idempotencyInterceptor :=
  setLock l (mkVolLockInfo (held (lockOf l i)) (methodInErr (lockOf l i) ∖ {[m]})) i.

(** [_, ok := lock.methodInErr[m]]. *)
Definition inErr (l : lockPtr) (m : string) (i : idempotencyInterceptor) : bool :=
  bool_decide (m ∈ methodInErr (lockOf l i)).

(** [lock.Unlock()]. *)
Definition Unlock (l : lockPtr) (i : idempotencyInterceptor) : idempotencyInterceptor :=
  setLock l (mkVolLockInfo false (methodInErr (lockOf l i))) i.

(** The [IdempotencyProvider] interface.  Every method takes the world and
    gives back its answer and the world after the query. *)
Class IdempotencyProvider (W : Type) := {
  GetVolumeID : string -> W -> (string * option error) * W;
  GetVolumeInfo : string -> string -> W -> (option VolumeInfo * option error) * W;
  IsControllerPublished : string -> string -> W -> (gomap * option error) * W;
  IsNodePublished : string -> gomap -> string -> W -> (bool * option error) * W
}.

(** What a call of a procedure ends in: a normal return of the two named
    results, or a run-time panic that unwinds into the caller. *)
Inductive outcome :=
| Returned (res : iface) (resErr : option error)
| Panicked.

(** The calls a procedure makes to its collaborators, with their answers. *)
Inductive event :=
| EvGetVolumeInfo (id name : string) (volInfo : option VolumeInfo) (err : option error)
| EvIsControllerPublished (volumeID nodeID : string) (pubInfo : gomap) (err : option error)
| EvIsNodePublished (id : string) (pubVolInfo : gomap) (targetPath : string)
    (ok : bool) (err : option error)
| EvHandler (req : Request) (res : iface) (err : option error).

Definition is_handler (e : event) : bool :=
  match e with EvHandler _ _ _ => true | _ => false end.

Definition is_GetVolumeInfo (e : event) : bool :=
  match e with EvGetVolumeInfo _ _ _ _ => true | _ => false end.

Definition count (f : event -> bool) (t : list event) : nat :=
  length (filter (fun e => f e = true) t).

(** A deferred closure.  It reads the named results [res] and [resErr] and
    works on the interceptor; [None] is a run-time panic raised before the
    closure changed anything. *)
Definition deferred : Type :=
  iface -> option error -> idempotencyInterceptor -> option idempotencyInterceptor.

Section Interceptor.
Context {W : Type} {p : IdempotencyProvider W}.

(** [grpc.UnaryHandler], acting on the world. *)
Definition UnaryHandler : Type := Request -> W -> (iface * option error) * W.

(** The activation frame of one procedure call. *)
Record frame := mkFrame {
  icpt : idempotencyInterceptor;
  world : W;
  trace : list event;
  defers : list deferred
}.

(** A statement of a procedure body: it either falls through with a value
    ([inl]) or executes [return res, resErr] ([inr]). *)
Definition M (A : Type) : Type := frame -> (A + iface * option error) * frame.

#[local] Instance M_ret : MRet M := fun A a f => (inl a, f).
#[local] Instance M_bind : MBind M := fun A B k m f =>
  match m f with
  | (inl a, f') => k a f'
  | (inr r, f') => (inr r, f')
  end.

Definition Return {A} (res : iface) (resErr : option error) : M A :=
  fun f => (inr (res, resErr), f).

Definition when (c : bool) (body : M unit) : M unit :=
  if c then body else mret tt.

Definition getOpts : M idempIntercOpts := fun f => (inl (opts (icpt f)), f).

(** [defer d()]: push on the frame's stack. *)
Definition defer (d : deferred) : M unit :=
  fun f => (inl tt, mkFrame (icpt f) (world f) (trace f) (d :: defers f)).

(** [i.lockWithID(id)] and [i.lockWithName(name)]: get or lazily create. *)
Definition lockWithID (id : string) : M lockPtr := fun f =>
  let i := icpt f in
  let i' := match volIDLocks i !! id with
            | None => setLock (idLockPtr id) freshLock i
            | Some _ => i
            end in
  (inl (idLockPtr id), mkFrame i' (world f) (trace f) (defers f)).

Definition lockWithName (name : string) : M lockPtr := fun f =>
  let i := icpt f in
  let i' := match volNameLocks i !! name with
            | None => setLock (nameLockPtr name) freshLock i
            | Some _ => i
            end in
  (inl (nameLockPtr name), mkFrame i' (world f) (trace f) (defers f)).

(** Modelled from the spec: [MutexWithTryLock.TryLock] is not among the
    sources.  Per the spec it succeeds at once on an uncontended mutex and
    otherwise waits up to the timeout; in a sequential run a holder cannot
    release during the wait, so a held mutex times out. *)
Definition TryLock (l : lockPtr) (t : Z) : M bool := fun f =>
  let i := icpt f in
  if held (lockOf l i) then (inl false, f)
  else (inl true,
        mkFrame (setLock l (mkVolLockInfo true (methodInErr (lockOf l i))) i)
                (world f) (trace f) (defers f)).

Definition methodInErr_has (l : lockPtr) (m : string) : M bool :=
  fun f => (inl (inErr l m (icpt f)), f).

Definition log (e : event) (f : frame) (w : W) : frame :=
  mkFrame (icpt f) w (trace f ++ [e]) (defers f).

(** Calls through [i.p] and to [handler], each recorded in the trace. *)
Definition p_GetVolumeInfo (id name : string) : M (option VolumeInfo * option error) :=
  fun f => let '(r, w) := GetVolumeInfo id name (world f) in
           (inl r, log (EvGetVolumeInfo id name r.1 r.2) f w).

Definition p_IsControllerPublished (volumeID nodeID : string) : M (gomap * option error) :=
  fun f => let '(r, w) := IsControllerPublished volumeID nodeID (world f) in
           (inl r, log (EvIsControllerPublished volumeID nodeID r.1 r.2) f w).

Definition p_IsNodePublished (id : string) (pubVolInfo : gomap) (targetPath : string)
    : M (bool * option error) :=
  fun f => let '(r, w) := IsNodePublished id pubVolInfo targetPath (world f) in
           (inl r, log (EvIsNodePublished id pubVolInfo targetPath r.1 r.2) f w).

(** [return handler(ctx, req)]. *)
Definition return_handler {A} (handler : UnaryHandler) (req : Request) : M A :=
  fun f => let '(r, w) := handler req (world f) in
           (inr r, log (EvHandler req r.1 r.2) f w).

Definition isNil {A} (o : option A) : bool :=
  match o with None => true | Some _ => false end.

(** The exit hook the five id-keyed procedures defer, written once over the
    response type asserted:
<<
    if resErr != nil || res.(XResponse).GetError() != nil {
        lock.methodInErr[info.FullMethod] = struct{}{}
    } else if _, ok := lock.methodInErr[info.FullMethod]; ok {
        delete(lock.methodInErr, info.FullMethod)
    }
>> *)
Definition exitHook (getError : iface -> option (option Error))
    (lock : lockPtr) (info : UnaryServerInfo) : deferred :=
  fun res resErr i =>
    failed ← (if negb (isNil resErr) then Some true
              else e ← getError res; Some (negb (isNil e)));
    if failed : bool then Some (markInErr lock (FullMethod info) i)
    else if inErr lock (FullMethod info) i
         then Some (unmarkInErr lock (FullMethod info) i)
         else Some i.

(** The exit hook [createVolume] defers for the name lock:
<<
    if resErr != nil || res.(CreateVolumeResponse).GetError() != nil {
        terr := res.(CreateVolumeResponse).GetError()
        if terr, ok := terr.Value.(Error_CreateVolumeError_); ok &&
            terr.CreateVolumeError != nil &&
            terr.CreateVolumeError.ErrorCode == OPERATION_PENDING_FOR_VOLUME {
            return
        }
        nameLock.methodInErr[info.FullMethod] = struct{}{}
    } else if _, ok := nameLock.methodInErr[info.FullMethod]; ok {
        delete(nameLock.methodInErr, info.FullMethod)
    }
>>
    The second type assertion and the selection [terr.Value] are evaluated
    whenever the first branch is entered, also when it is entered because
    [resErr] is not nil. *)
Definition createVolume_nameHook (nameLock : lockPtr) (info : UnaryServerInfo) : deferred :=
  fun res resErr i =>
    failed ← (if negb (isNil resErr) then Some true
              else e ← CreateVolumeResponse_GetError res; Some (negb (isNil e)));
    if failed : bool then
      (* terr := res.(CreateVolumeResponse).GetError() *)
      terr ← CreateVolumeResponse_GetError res;
      (* terr.Value dereferences terr *)
      terr ← terr;
      match Value terr with
      | Some (Error_CreateVolumeError_ (Some e)) =>
          match ErrorCode_ e with
          | OPERATION_PENDING_FOR_VOLUME => Some i
          | _ => Some (markInErr nameLock (FullMethod info) i)
          end
      | _ => Some (markInErr nameLock (FullMethod info) i)
      end
    else if inErr nameLock (FullMethod info) i
         then Some (unmarkInErr nameLock (FullMethod info) i)
         else Some i.

(** [defer lock.Unlock()]. *)
Definition deferUnlock (lock : lockPtr) : deferred :=
  fun _ _ i => Some (Unlock lock i).

(** Running the deferred closures, most recently deferred first.  A closure
    that panics leaves the interceptor as it found it; the closures deferred
    before it still run. *)
Fixpoint runDefers (ds : list deferred) (res : iface) (resErr : option error)
    (i : idempotencyInterceptor) : bool * idempotencyInterceptor :=
  match ds with
  | [] => (false, i)
  | d :: ds' =>
      match d res resErr i with
      | Some i' => runDefers ds' res resErr i'
      | None => let '(_, i') := runDefers ds' res resErr i in (true, i')
      end
  end.

(** One call of a procedure from interceptor state [i] and world [w]. *)
Definition exec (body : M Empty_set) (i : idempotencyInterceptor) (w : W)
    : outcome * idempotencyInterceptor * W * list event :=
  match body (mkFrame i w [] []) with
  | (inr (res, resErr), f) =>
      let '(panicked, i') := runDefers (defers f) res resErr (icpt f) in
      (if panicked : bool then Panicked else Returned res resErr, i', world f, trace f)
  | (inl v, _) => match v with end
  end.

(** *** The six procedures *)

Definition controllerPublishVolume (req : ControllerPublishVolumeRequest)
    (info : UnaryServerInfo) (handler : UnaryHandler) : M Empty_set :=
  lock ← lockWithID (ControllerPublishVolumeId req);
  o ← getOpts;
  locked ← TryLock lock (timeout o);
  when (negb locked) (Return
    (ControllerPublishVolumeResponse_ptr
       (ErrControllerPublishVolume OPERATION_PENDING_FOR_VOLUME "")) None);;
  defer (exitHook ControllerPublishVolumeResponse_GetError lock info);;
  defer (deferUnlock lock);;
  ok ← methodInErr_has lock (FullMethod info);
  when ok (return_handler handler (ControllerPublishVolumeRequest_ptr req));;
  when (requireVolume o) (
    '(volInfo, err) ← p_GetVolumeInfo (ControllerPublishVolumeId req) "";
    when (negb (isNil err)) (Return nil_iface err);;
    when (isNil volInfo) (Return
      (ControllerPublishVolumeResponse_ptr
         (ErrControllerPublishVolume VOLUME_DOES_NOT_EXIST "")) None));;
  '(pubInfo, err) ← p_IsControllerPublished
                      (ControllerPublishVolumeId req) (ControllerPublishNodeId req);
  when (negb (isNil err)) (Return nil_iface err);;
  when (negb (isNil pubInfo)) (Return
    (ControllerPublishVolumeResponse_ptr (Some (mkResponse (Some (Response_Result_
       {| PublishVolumeInfo := pubInfo |}))))) None);;
  return_handler handler (ControllerPublishVolumeRequest_ptr req).

Definition controllerUnpublishVolume (req : ControllerUnpublishVolumeRequest)
    (info : UnaryServerInfo) (handler : UnaryHandler) : M Empty_set :=
  lock ← lockWithID (ControllerUnpublishVolumeId req);
  o ← getOpts;
  locked ← TryLock lock (timeout o);
  when (negb locked) (Return
    (ControllerUnpublishVolumeResponse_ptr
       (ErrControllerUnpublishVolume OPERATION_PENDING_FOR_VOLUME "")) None);;
  defer (exitHook ControllerUnpublishVolumeResponse_GetError lock info);;
  defer (deferUnlock lock);;
  ok ← methodInErr_has lock (FullMethod info);
  when ok (return_handler handler (ControllerUnpublishVolumeRequest_ptr req));;
  when (requireVolume o) (
    '(volInfo, err) ← p_GetVolumeInfo (ControllerUnpublishVolumeId req) "";
    when (negb (isNil err)) (Return nil_iface err);;
    when (isNil volInfo) (Return
      (ControllerUnpublishVolumeResponse_ptr
         (ErrControllerUnpublishVolume VOLUME_DOES_NOT_EXIST "")) None));;
  '(pubInfo, err) ← p_IsControllerPublished
                      (ControllerUnpublishVolumeId req) (ControllerUnpublishNodeId req);
  when (negb (isNil err)) (Return nil_iface err);;
  when (isNil pubInfo) (Return
    (ControllerUnpublishVolumeResponse_ptr (Some (mkResponse (Some (Response_Result_
       Build_ControllerUnpublishVolumeResponse_Result))))) None);;
  return_handler handler (ControllerUnpublishVolumeRequest_ptr req).

Definition createVolume (req : CreateVolumeRequest)
    (info : UnaryServerInfo) (handler : UnaryHandler) : M Empty_set :=
  (* First attempt to lock the volume by the provided name. *)
  nameLock ← lockWithName (Name req);
  o ← getOpts;
  locked ← TryLock nameLock (timeout o);
  when (negb locked) (Return
    (CreateVolumeResponse_ptr (ErrCreateVolume OPERATION_PENDING_FOR_VOLUME "")) None);;
  defer (createVolume_nameHook nameLock info);;
  defer (deferUnlock nameLock);;
  ok ← methodInErr_has nameLock (FullMethod info);
  when ok (return_handler handler (CreateVolumeRequest_ptr req));;
  (* Next, attempt to get the volume info based on the name. *)
  '(volInfo, err) ← p_GetVolumeInfo "" (Name req);
  when (negb (isNil err)) (Return nil_iface err);;
  match volInfo with
  | None => return_handler handler (CreateVolumeRequest_ptr req)
  | Some volInfo =>
      (* The volume exists: lock it by its ID. *)
      idLock ← lockWithID (Id volInfo);
      locked ← TryLock idLock (timeout o);
      when (negb locked) (Return
        (CreateVolumeResponse_ptr (ErrCreateVolume OPERATION_PENDING_FOR_VOLUME "")) None);;
      defer (exitHook CreateVolumeResponse_GetError idLock info);;
      defer (deferUnlock idLock);;
      ok ← methodInErr_has idLock (FullMethod info);
      when ok (return_handler handler (CreateVolumeRequest_ptr req));;
      (* Once again call GetVolumeInfo, this time with the volume ID. *)
      '(volInfo, err) ← p_GetVolumeInfo (Id volInfo) "";
      when (negb (isNil err)) (Return nil_iface err);;
      when (isNil volInfo) (return_handler handler (CreateVolumeRequest_ptr req));;
      Return
        (CreateVolumeResponse_ptr (Some (mkResponse (Some (Response_Result_
           {| VolumeInfo_ := volInfo |}))))) None
  end.

Definition deleteVolume (req : DeleteVolumeRequest)
    (info : UnaryServerInfo) (handler : UnaryHandler) : M Empty_set :=
  lock ← lockWithID (DeleteVolumeId req);
  o ← getOpts;
  locked ← TryLock lock (timeout o);
  when (negb locked) (Return
    (DeleteVolumeResponse_ptr (ErrDeleteVolume OPERATION_PENDING_FOR_VOLUME "")) None);;
  defer (exitHook DeleteVolumeResponse_GetError lock info);;
  defer (deferUnlock lock);;
  ok ← methodInErr_has lock (FullMethod info);
  when ok (return_handler handler (DeleteVolumeRequest_ptr req));;
  (* var volExists bool *)
  volExists ←
    (if requireVolume o then
       '(volInfo, err) ← p_GetVolumeInfo (DeleteVolumeId req) "";
       when (negb (isNil err)) (Return nil_iface err);;
       when (isNil volInfo) (Return
         (DeleteVolumeResponse_ptr (ErrDeleteVolume VOLUME_DOES_NOT_EXIST "")) None);;
       mret true
     else mret false);
  (* Check to see if the volume exists if that has not yet been verified. *)
  volExists ←
    (if negb volExists then
       '(volInfo, err) ← p_GetVolumeInfo (DeleteVolumeId req) "";
       when (negb (isNil err)) (Return nil_iface err);;
       mret (negb (isNil volInfo))
     else mret volExists);
  when (negb volExists) (Return
    (DeleteVolumeResponse_ptr (Some (mkResponse (Some (Response_Result_
       Build_DeleteVolumeResponse_Result))))) None);;
  return_handler handler (DeleteVolumeRequest_ptr req).

Definition nodePublishVolume (req : NodePublishVolumeRequest)
    (info : UnaryServerInfo) (handler : UnaryHandler) : M Empty_set :=
  lock ← lockWithID (NodePublishVolumeId req);
  o ← getOpts;
  locked ← TryLock lock (timeout o);
  when (negb locked) (Return
    (NodePublishVolumeResponse_ptr
       (ErrNodePublishVolume OPERATION_PENDING_FOR_VOLUME "")) None);;
  defer (exitHook NodePublishVolumeResponse_GetError lock info);;
  defer (deferUnlock lock);;
  ok ← methodInErr_has lock (FullMethod info);
  when ok (return_handler handler (NodePublishVolumeRequest_ptr req));;
  when (requireVolume o) (
    '(volInfo, err) ← p_GetVolumeInfo (NodePublishVolumeId req) "";
    when (negb (isNil err)) (Return nil_iface err);;
    when (isNil volInfo) (Return
      (NodePublishVolumeResponse_ptr
         (ErrNodePublishVolume VOLUME_DOES_NOT_EXIST "")) None));;
  '(ok, err) ← p_IsNodePublished
                 (NodePublishVolumeId req) (NodePublishVolumeInfo req)
                 (NodePublishTargetPath req);
  when (negb (isNil err)) (Return nil_iface err);;
  when ok (Return
    (NodePublishVolumeResponse_ptr (Some (mkResponse (Some (Response_Result_
       Build_NodePublishVolumeResponse_Result))))) None);;
  return_handler handler (NodePublishVolumeRequest_ptr req).

Definition nodeUnpublishVolume (req : NodeUnpublishVolumeRequest)
    (info : UnaryServerInfo) (handler : UnaryHandler) : M Empty_set :=
  lock ← lockWithID (NodeUnpublishVolumeId req);
  o ← getOpts;
  locked ← TryLock lock (timeout o);
  when (negb locked) (Return
    (NodeUnpublishVolumeResponse_ptr
       (ErrNodeUnpublishVolume OPERATION_PENDING_FOR_VOLUME "")) None);;
  defer (exitHook NodeUnpublishVolumeResponse_GetError lock info);;
  defer (deferUnlock lock);;
  ok ← methodInErr_has lock (FullMethod info);
  when ok (return_handler handler (NodeUnpublishVolumeRequest_ptr req));;
  when (requireVolume o) (
    '(volInfo, err) ← p_GetVolumeInfo (NodeUnpublishVolumeId req) "";
    when (negb (isNil err)) (Return nil_iface err);;
    when (isNil volInfo) (Return
      (NodeUnpublishVolumeResponse_ptr
         (ErrNodeUnpublishVolume VOLUME_DOES_NOT_EXIST "")) None));;
  '(ok, err) ← p_IsNodePublished
                 (NodeUnpublishVolumeId req) None (NodeUnpublishTargetPath req);
  when (negb (isNil err)) (Return nil_iface err);;
  when (negb ok) (Return
    (NodeUnpublishVolumeResponse_ptr (Some (mkResponse (Some (Response_Result_
       Build_NodeUnpublishVolumeResponse_Result))))) None);;
  return_handler handler (NodeUnpublishVolumeRequest_ptr req).

(** The dispatcher. *)
Definition handle (req : Request) (info : UnaryServerInfo)
    (handler : UnaryHandler) : M Empty_set :=
  match req with
  | ControllerPublishVolumeRequest_ptr treq => controllerPublishVolume treq info handler
  | ControllerUnpublishVolumeRequest_ptr treq => controllerUnpublishVolume treq info handler
  | CreateVolumeRequest_ptr treq => createVolume treq info handler
  | DeleteVolumeRequest_ptr treq => deleteVolume treq info handler
  | NodePublishVolumeRequest_ptr treq => nodePublishVolume treq info handler
  | NodeUnpublishVolumeRequest_ptr treq => nodeUnpublishVolume treq info handler
  | other_request => return_handler handler req
  end.

End Interceptor.

(** *** Construction *)

Definition IdempotentInterceptorOption : Type := idempIntercOpts -> idempIntercOpts.

Definition WithIdempTimeout (t : Z) : IdempotentInterceptorOption :=
  fun o => {| timeout := t; requireVolume := requireVolume o |}.

Definition WithIdempRequireVolumeExists : IdempotentInterceptorOption :=
  fun o => {| timeout := timeout o; requireVolume := true |}.

Definition NewIdempotentInterceptor (options : list IdempotentInterceptorOption)
    : idempotencyInterceptor :=
  mkInterceptor ∅ ∅
    (fold_left (fun o setOpt => setOpt o) options {| timeout := 0; requireVolume := false |}).

(** *** Auxiliary definitions used to state and prove the properties *)

(** The four components of what [exec] yields. *)
Definition outcome_of {W} (r : outcome * idempotencyInterceptor * W * list event) : outcome :=
  r.1.1.1.
Definition icpt_of {W} (r : outcome * idempotencyInterceptor * W * list event)
    : idempotencyInterceptor := r.1.1.2.
Definition world_of {W} (r : outcome * idempotencyInterceptor * W * list event) : W :=
  r.1.2.
Definition trace_of {W} (r : outcome * idempotencyInterceptor * W * list event) : list event :=
  r.2.

(** The interceptor after [lockWithID]/[lockWithName] on [l]. *)
Definition ensure (l : lockPtr) (i : idempotencyInterceptor) : idempotencyInterceptor :=
  match l with
  | idLockPtr id =>
      match volIDLocks i !! id with None => setLock l freshLock i | Some _ => i end
  | nameLockPtr name =>
      match volNameLocks i !! name with None => setLock l freshLock i | Some _ => i end
  end.

(** The interceptor after a successful [TryLock] on [l]. *)
Definition acquire (l : lockPtr) (i : idempotencyInterceptor) : idempotencyInterceptor :=
  setLock l (mkVolLockInfo true (methodInErr (lockOf l i))) i.

(** The condition the exit hooks test first; [None] when testing it panics. *)
Definition hookFailed (getError : iface -> option (option Error))
    (res : iface) (resErr : option error) : option bool :=
  if negb (isNil resErr) then Some true
  else e ← getError res; Some (negb (isNil e)).

(** What the exit hook of the id-keyed locks leaves behind, given the
    outcome of the test it starts with. *)
Definition hooked (l : lockPtr) (m : string) (failed : bool)
    (i : idempotencyInterceptor) : idempotencyInterceptor :=
  if failed then markInErr l m i
  else if inErr l m i then unmarkInErr l m i else i.

(** The embedded error of an "operation pending" CreateVolume reply. *)
Definition pendingError (desc : string) : Error :=
  mkError (Some (Error_CreateVolumeError_
                   (Some (mkRPCError OPERATION_PENDING_FOR_VOLUME desc)))).

(** The [publish_volume_info] a reply carries, read with the nil-safe
    getters ([GetResult().GetPublishVolumeInfo()]); a nil map has no
    entries. *)
Definition publish_volume_info (res : iface) : gmap string string :=
  match res with
  | ControllerPublishVolumeResponse_ptr p =>
      match GetResult p with
      | Some r => default ∅ (PublishVolumeInfo r)
      | None => ∅
      end
  | _ => ∅
  end.

(** *** Definitions used to state what a call leaves behind *)

(** The interceptor with the record of [l] released and its method-in-error
    set replaced by [S]. *)
Definition released (l : lockPtr) (S : gset string)
    (i : idempotencyInterceptor) : idempotencyInterceptor :=
  setLock l (mkVolLockInfo false S) i.

(** How the exit hooks may change a method-in-error set for method [m]:
    leave it, add [m] or remove [m]. *)
Definition marks_step (m : string) (old S : gset string) : Prop :=
  S = old \/ S = {[m]} ∪ old \/ S = old ∖ {[m]}.

(** The interceptor [i'] a call of one of the five id-keyed procedures on
    lock [l] leaves behind when it starts from [i]. *)
Definition id_keyed_exit (l : lockPtr) (m : string)
    (i i' : idempotencyInterceptor) : Prop :=
  (held (lockOf l i) = true /\ i' = i)
  \/ (held (lockOf l i) = false
      /\ exists S, marks_step m (methodInErr (lockOf l i)) S /\ i' = released l S i).

(** The same for a CreateVolume of [name], which may also take and release
    the lock of one volume ID. *)
Definition createVolume_exit (name : string) (m : string)
    (i i' : idempotencyInterceptor) : Prop :=
  (held (lockOf (nameLockPtr name) i) = true /\ i' = i)
  \/ (held (lockOf (nameLockPtr name) i) = false
      /\ exists Sn, marks_step m (methodInErr (lockOf (nameLockPtr name) i)) Sn
         /\ (i' = released (nameLockPtr name) Sn i
             \/ exists id Si,
                  held (lockOf (idLockPtr id) i) = false
                  /\ marks_step m (methodInErr (lockOf (idLockPtr id) i)) Si
                  /\ i' = released (nameLockPtr name) Sn (released (idLockPtr id) Si i))).

Definition exit_shape (req : Request) (m : string)
    (i i' : idempotencyInterceptor) : Prop :=
  match req with
  | CreateVolumeRequest_ptr r => createVolume_exit (Name r) m i i'
  | DeleteVolumeRequest_ptr r => id_keyed_exit (idLockPtr (DeleteVolumeId r)) m i i'
  | ControllerPublishVolumeRequest_ptr r =>
      id_keyed_exit (idLockPtr (ControllerPublishVolumeId r)) m i i'
  | ControllerUnpublishVolumeRequest_ptr r =>
      id_keyed_exit (idLockPtr (ControllerUnpublishVolumeId r)) m i i'
  | NodePublishVolumeRequest_ptr r =>
      id_keyed_exit (idLockPtr (NodePublishVolumeId r)) m i i'
  | NodeUnpublishVolumeRequest_ptr r =>
      id_keyed_exit (idLockPtr (NodeUnpublishVolumeId r)) m i i'
  | other_request => i' = i
  end.

#[global] Instance lockPtr_eq_dec : EqDecision lockPtr.
Proof. solve_decision. Defined.

(** The lock a request's procedure tries first: the name lock for
    CreateVolume, the lock of the request's volume ID for the other five. *)
Definition lockKey (req : Request) : option lockPtr :=
  match req with
  | CreateVolumeRequest_ptr r => Some (nameLockPtr (Name r))
  | DeleteVolumeRequest_ptr r => Some (idLockPtr (DeleteVolumeId r))
  | ControllerPublishVolumeRequest_ptr r => Some (idLockPtr (ControllerPublishVolumeId r))
  | ControllerUnpublishVolumeRequest_ptr r =>
      Some (idLockPtr (ControllerUnpublishVolumeId r))
  | NodePublishVolumeRequest_ptr r => Some (idLockPtr (NodePublishVolumeId r))
  | NodeUnpublishVolumeRequest_ptr r => Some (idLockPtr (NodeUnpublishVolumeId r))
  | other_request => None
  end.

Definition isCreateVolume (req : Request) : bool :=
  match req with CreateVolumeRequest_ptr _ => true | _ => false end.

(** The embedded error of a reply of any of the six response types, read
    with the nil-safe getter. *)
Definition iface_GetError (res : iface) : option Error :=
  match res with
  | CreateVolumeResponse_ptr p => GetError p
  | DeleteVolumeResponse_ptr p => GetError p
  | ControllerPublishVolumeResponse_ptr p => GetError p
  | ControllerUnpublishVolumeResponse_ptr p => GetError p
  | NodePublishVolumeResponse_ptr p => GetError p
  | NodeUnpublishVolumeResponse_ptr p => GetError p
  | nil_iface | other_iface => None
  end.

(** A call failed: it returns an error or a reply with an embedded error. *)
Definition callFailed (res : iface) (err : option error) : bool :=
  negb (isNil err) || negb (isNil (iface_GetError res)).

(** The error a provider query answered with. *)
Definition event_error (ev : event) : option error :=
  match ev with
  | EvGetVolumeInfo _ _ _ e | EvIsControllerPublished _ _ _ e
  | EvIsNodePublished _ _ _ _ e => e
  | EvHandler _ _ _ => None
  end.

Section Precheck.
Context {W : Type} {p : IdempotencyProvider W}.

(** The world in which the idempotency query is made: after the existence
    precheck, if the interceptor requires volumes to exist. *)
Definition afterPrecheck (i : idempotencyInterceptor) (id : string) (w : W) : W :=
  if requireVolume (opts i) then (GetVolumeInfo id "" w).2 else w.

(** The existence precheck, if made, finds the volume. *)
Definition precheckPasses (i : idempotencyInterceptor) (id : string) (w : W) : Prop :=
  requireVolume (opts i) = true -> exists v, (GetVolumeInfo id "" w).1 = (Some v, None).

End Precheck.

End gocsi.

(* ===================================================================== *)
(** ** Package service: the mock plug-in's controller                     *)
(* ===================================================================== *)

Module service.
Import csi.
#[local] Open Scope Z_scope.

(** Unsigned machine integers are integers with the wrap-around written
    out at the conversions and operations that can wrap. *)
Definition uint32 (z : Z) : Z := z mod 2 ^ 32.
Definition uint64 (z : Z) : Z := z mod 2 ^ 64.
Definition MaxUint32 : Z := 2 ^ 32 - 1.

(** [fmt.Sprintf("%d", n)] for a non-negative [n]. *)
Definition FormatUint (n : Z) : string :=
  NilEmpty.string_of_uint (N.to_uint (Z.to_N n)).

(** [strconv.ParseUint(s, 10, bitSize)]: a non-empty string of decimal
    digits, without sign, whose value fits [bitSize] bits; [None] stands for
    a non-nil error (syntax or range). *)
Definition ParseUint (s : string) (bitSize : Z) : option Z :=
  if bool_decide (s = "") then None
  else match NilEmpty.uint_of_string s with
       | Some d =>
           let n := Z.of_N (N.of_uint d) in
           if n <? 2 ^ bitSize then Some n else None
       | None => None
       end.

(** Modelled from the spec: the [service] struct is declared in a file that
    is not among the sources.  The model keeps the fields the RPCs use: the
    node ID, the volume slice and the counter the volume IDs come from. *)
Record service := mkService {
  nodeID : string;
  vols : list VolumeInfo;
  volsNID : Z
}.

(** Modelled from the spec: the constant [gib100], 100 GiB in bytes. *)
Definition gib100 : Z := 1024 * 1024 * 1024 * 100.

(** Modelled from the spec: the helper [newVolume], absent from the sources.
    It makes a volume of the given capacity whose ID is the next value of
    the service's counter, in decimal, and which is named in its
    attributes (the README's log of a [CreateVolume] on a fresh plug-in with
    three volumes shows ID 4 and the requested capacity). *)
Definition newVolume (s : service) (name : string) (capcity : Z)
    : VolumeInfo * service :=
  let nid := uint64 (volsNID s + 1) in
  ({| CapacityBytes := capcity;
      Id := FormatUint nid;
      Attributes := Some {[ "name" := name ]} |},
   mkService (nodeID s) (vols s) nid).

Definition CreateVolume (s : service) (req : CreateVolumeRequest)
    : (option CreateVolumeResponse * option error) * service :=
  (* If no capacity is specified then use 100GiB *)
  let capacity := gib100 in
  let capacity :=
    match CapacityRange_ req with
    | Some cr =>
        let capacity := if 0 <? RequiredBytes cr then RequiredBytes cr else capacity in
        let capacity := if 0 <? LimitBytes cr then LimitBytes cr else capacity in
        capacity
    | None => capacity
    end in
  (* Create the volume and add it to the service's in-mem volume slice. *)
  let '(v, s) := newVolume s (Name req) capacity in
  let s := mkService (nodeID s) (vols s ++ [v]) (volsNID s) in
  ((Some (mkResponse (Some (Response_Result_ {| VolumeInfo_ := Some v |}))), None), s).

(** The loop of [ListVolumes],
<<
    for i = 0; i < len(entries); i++ {
        entries[i] = &Entry{VolumeInfo: &vols[j]}
        j++
    }
>>
    by recursion on the number [n] of iterations left, [len(entries) - i].
    [None] is the panic of an index out of range. *)
Fixpoint fillEntries (n : nat) (vols : list VolumeInfo) (i : nat) (j : Z)
    (entries : list (option ListVolumesResponse_Result_Entry))
    : option (nat * Z * list (option ListVolumesResponse_Result_Entry)) :=
  match n with
  | O => Some (i, j, entries)
  | S n' =>
      if bool_decide (i < length entries)%nat then
        v ← vols !! Z.to_nat j;
        fillEntries n' vols (S i) (uint32 (j + 1))
          (<[i := Some {| EntryVolumeInfo := Some v |}]> entries)
      else None
  end.

(** [ListVolumes]; the outer [None] is a run-time panic. *)
Definition ListVolumes (s : service) (req : ListVolumesRequest)
    : option (option ListVolumesResponse * option error) :=
  (* Copy the mock volumes into a new slice. *)
  let vols := vols s in
  let ulenVols := uint32 (Z.of_nat (length vols)) in
  let maxEntries := MaxEntries req in
  let startingToken := 0 in
  let parsed :=
    if negb (bool_decide (StartingToken req = "")) then
      match ParseUint (StartingToken req) 32 with
      | None =>
          inl (gocsi.ErrListVolumes 0
                 ("startingToken=" +:+ FormatUint startingToken
                  +:+ " !< uint32=" +:+ FormatUint MaxUint32))
      | Some i => inr (uint32 i)
      end
    else inr startingToken in
  match parsed with
  | inl reply => Some (reply, None)
  | inr startingToken =>
      if ulenVols <? startingToken then
        Some (gocsi.ErrListVolumes 0
                ("startingToken=" +:+ FormatUint startingToken
                 +:+ " > len(vols)=" +:+ FormatUint ulenVols), None)
      else
        (* Discern the number of remaining entries. *)
        let rem := uint32 (ulenVols - startingToken) in
        let maxEntries :=
          if (maxEntries =? 0) || (rem <? maxEntries) then rem else maxEntries in
        let entries := replicate (Z.to_nat maxEntries) None in
        '(i, j, entries) ← fillEntries (length entries) vols 0 startingToken entries;
        let n := uint32 (startingToken + uint32 (Z.of_nat i)) in
        let nextToken := if n <? ulenVols then FormatUint n else "" in
        Some (Some (mkResponse (Some (Response_Result_
                {| Entries := entries; NextToken := nextToken |}))), None)
  end.

(** The entry [ListVolumes] makes for a volume. *)
Definition entryOf (v : VolumeInfo) : option ListVolumesResponse_Result_Entry :=
  Some {| EntryVolumeInfo := Some v |}.


(** A client that lists all volumes page by page: it asks for at most
    [maxEntries] entries at a time, starts with the empty token and follows
    [NextToken] until it is empty.  [fuel] bounds the number of requests;
    [None] is a panic, an error reply or fuel exhausted. *)
Fixpoint listAll (fuel : nat) (s : service) (maxEntries : Z) (token : string)
    : option (list (option ListVolumesResponse_Result_Entry)) :=
  match fuel with
  | O => None
  | S fuel' =>
      match ListVolumes s {| MaxEntries := maxEntries; StartingToken := token |} with
      | Some (Some {| Reply := Some (Response_Result_ r) |}, None) =>
          if bool_decide (NextToken r = "") then Some (Entries r)
          else rest ← listAll fuel' s maxEntries (NextToken r);
               Some (Entries r ++ rest)%list
      | _ => None
      end
  end.

(** Go's slice expressions [s[lo:]] and [s[:hi]] on a slice taken at its
    length, and the indexed store [s[k] = x]; [None] is the panic of a
    bound out of range. *)
Definition slice_from {A} (l : list A) (lo : Z) : option (list A) :=
  if (0 <=? lo) && (lo <=? Z.of_nat (length l)) then Some (drop (Z.to_nat lo) l)
  else None.

Definition slice_to {A} (l : list A) (hi : Z) : option (list A) :=
  if (0 <=? hi) && (hi <=? Z.of_nat (length l)) then Some (take (Z.to_nat hi) l)
  else None.

Definition store {A} (l : list A) (k : Z) (x : A) : option (list A) :=
  if (0 <=? k) && (k <? Z.of_nat (length l)) then Some (<[Z.to_nat k := x]> l)
  else None.

(** Go's [copy(dst, src)]: the contents of [dst] afterwards, the first
    [min(len(dst), len(src))] elements of which come from [src]. *)
Definition copy {A} (dst src : list A) : list A :=
  let n := (length dst `min` length src)%nat in
  (take n src ++ drop n dst)%list.

(** The zero value [csi.VolumeInfo{}]. *)
Definition zeroVolumeInfo : VolumeInfo :=
  {| CapacityBytes := 0; Id := ""; Attributes := None |}.

(** A reply that carries the result [r]. *)
Definition resultReply {R} (r : R) : option (Response R) :=
  Some (mkResponse (Some (Response_Result_ r))).

(** [v.Attributes[k] = x] on the volume [v]: a store into a nil map panics.
    Maps are values in this model: the volumes of the slice are taken not to
    share their attribute maps with one another. *)
Definition setAttribute (v : VolumeInfo) (k x : string) : option VolumeInfo :=
  m ← Attributes v;
  Some {| CapacityBytes := CapacityBytes v; Id := Id v;
          Attributes := Some (<[k := x]> m) |}.

(** [delete(v.Attributes, k)]: no operation on a nil map. *)
Definition deleteAttribute (v : VolumeInfo) (k : string) : VolumeInfo :=
  {| CapacityBytes := CapacityBytes v; Id := Id v;
     Attributes := delete k <$> Attributes v |}.

(** [v.Attributes[k]]: the zero value for a missing key or a nil map. *)
Definition getAttribute (v : VolumeInfo) (k : string) : string :=
  default "" (Attributes v ≫= (.!! k)).

(** Modelled from the spec: the code [MISSING_REQUIRED_FIELD] of the
    general-error enumeration and the reply constructor
    [gocsi.ErrNodePublishVolumeGeneral], which are not among the sources: the
    RPC's reply carrying an embedded general error with the given code and
    message. *)
Definition Error_GeneralError_MISSING_REQUIRED_FIELD : N := 3.

Definition ErrNodePublishVolumeGeneral (code : N) (msg : string)
    : option NodePublishVolumeResponse :=
  let e := mkError (Some (Error_GeneralError_ (Some (mkGeneralError code msg)))) in
  Some (mkResponse (Some (Response_Error (Some e)))).

Section Volumes.
(** The helper [findVolNoLock], which searches the volume slice for an
    attribute value and answers an index and a volume, is declared in a file
    that is not among the sources, and [path.Join] belongs to Go's library:
    the RPCs below are embedded over any two such functions.  The outer
    [None] of their results is a run-time panic. *)
Variable findVolNoLock : service -> string -> string -> Z * VolumeInfo.
Variable path_Join : string -> string -> string.

Definition DeleteVolume (s : service) (req : DeleteVolumeRequest)
    : option ((option DeleteVolumeResponse * option error) * service) :=
  let '(i, _) := findVolNoLock s "id" (DeleteVolumeId req) in
  (* copy(s.vols[i:], s.vols[i+1:]) *)
  dst ← slice_from (vols s) i;
  src ← slice_from (vols s) (i + 1);
  let vols1 := (take (Z.to_nat i) (vols s) ++ copy dst src)%list in
  (* s.vols[len(s.vols)-1] = csi.VolumeInfo{} *)
  vols2 ← store vols1 (Z.of_nat (length vols1) - 1) zeroVolumeInfo;
  (* s.vols = s.vols[:len(s.vols)-1] *)
  vols3 ← slice_to vols2 (Z.of_nat (length vols2) - 1);
  Some ((resultReply Build_DeleteVolumeResponse_Result, None),
        mkService (nodeID s) vols3 (volsNID s)).

Definition ControllerPublishVolume (s : service) (req : ControllerPublishVolumeRequest)
    : option ((option ControllerPublishVolumeResponse * option error) * service) :=
  let devPathKey := path_Join (ControllerPublishNodeId req) "dev" in
  let '(i, v) := findVolNoLock s "id" (ControllerPublishVolumeId req) in
  (* Publish the volume. *)
  v ← setAttribute v devPathKey "/dev/mock";
  vols' ← store (vols s) i v;
  Some ((resultReply {| PublishVolumeInfo :=
                          Some {[ "device" := getAttribute v devPathKey ]} |}, None),
        mkService (nodeID s) vols' (volsNID s)).

Definition ControllerUnpublishVolume (s : service)
    (req : ControllerUnpublishVolumeRequest)
    : option ((option ControllerUnpublishVolumeResponse * option error) * service) :=
  let devPathKey := path_Join (ControllerUnpublishNodeId req) "dev" in
  let '(i, v) := findVolNoLock s "id" (ControllerUnpublishVolumeId req) in
  (* Unpublish the volume. *)
  let v := deleteAttribute v devPathKey in
  vols' ← store (vols s) i v;
  Some ((resultReply Build_ControllerUnpublishVolumeResponse_Result, None),
        mkService (nodeID s) vols' (volsNID s)).

Definition NodePublishVolume (s : service) (req : NodePublishVolumeRequest)
    : option ((option NodePublishVolumeResponse * option error) * service) :=
  match NodePublishVolumeInfo req ≫= (.!! "device") with
  | None =>
      Some ((ErrNodePublishVolumeGeneral Error_GeneralError_MISSING_REQUIRED_FIELD
               "publish volume info 'device' key required", None), s)
  | Some device =>
      let nodeMntPathKey := path_Join (nodeID s) (NodePublishTargetPath req) in
      (* Publish the volume. *)
      let '(i, v) := findVolNoLock s "id" (NodePublishVolumeId req) in
      v ← setAttribute v nodeMntPathKey device;
      vols' ← store (vols s) i v;
      Some ((resultReply Build_NodePublishVolumeResponse_Result, None),
            mkService (nodeID s) vols' (volsNID s))
  end.

Definition NodeUnpublishVolume (s : service) (req : NodeUnpublishVolumeRequest)
    : option ((option NodeUnpublishVolumeResponse * option error) * service) :=
  let nodeMntPathKey := path_Join (nodeID s) (NodeUnpublishTargetPath req) in
  (* Unpublish the volume. *)
  let '(i, v) := findVolNoLock s "id" (NodeUnpublishVolumeId req) in
  let v := deleteAttribute v nodeMntPathKey in
  vols' ← store (vols s) i v;
  Some ((resultReply Build_NodeUnpublishVolumeResponse_Result, None),
        mkService (nodeID s) vols' (volsNID s)).

End Volumes.

End service.

(* ===================================================================== *)
(** ** Concrete collaborators and states used in examples                 *)
(* ===================================================================== *)

Module scenarios.
Import csi gocsi.

Definition CreateVolumeMethod : string := "/csi.Controller/CreateVolume".
Definition DeleteVolumeMethod : string := "/csi.Controller/DeleteVolume".
Definition ControllerPublishVolumeMethod : string := "/csi.Controller/ControllerPublishVolume".

(** A provider over a world without state, scripted by its answers. *)
Definition scripted
    (getVolumeInfo : string -> string -> option VolumeInfo * option error)
    (isControllerPublished : string -> string -> gomap * option error)
    (isNodePublished : string -> gomap -> string -> bool * option error)
    : IdempotencyProvider unit := {|
  GetVolumeID := fun name w => (("", None), w);
  GetVolumeInfo := fun id name w => (getVolumeInfo id name, w);
  IsControllerPublished := fun volumeID nodeID w => (isControllerPublished volumeID nodeID, w);
  IsNodePublished := fun id pubVolInfo targetPath w => (isNodePublished id pubVolInfo targetPath, w)
|}.

(** A provider that knows no volume and no publication. *)
Definition emptyProvider : IdempotencyProvider unit :=
  scripted (fun _ _ => (None, None)) (fun _ _ => (None, None)) (fun _ _ _ => (false, None)).

(** A handler that answers every request with the same results. *)
Definition constHandler (res : iface) (err : option error) : @UnaryHandler unit :=
  fun _ w => ((res, err), w).

(** An interceptor on which the ID lock of ["v1"] and the name lock of
    ["alpha"] are held by requests in flight. *)
Definition busyInterceptor : idempotencyInterceptor :=
  setLock (nameLockPtr "alpha") (mkVolLockInfo true ∅)
    (setLock (idLockPtr "v1") (mkVolLockInfo true ∅) (NewIdempotentInterceptor [])).

(** An interceptor that has seen a CreateVolume of ["alpha"] fail: the
    method is marked in error on the (free) name lock. *)
Definition poisonedInterceptor : idempotencyInterceptor :=
  setLock (nameLockPtr "alpha") (mkVolLockInfo false {[ CreateVolumeMethod ]})
    (NewIdempotentInterceptor []).

(** A provider whose every query fails. *)
Definition failingProvider : IdempotencyProvider unit :=
  scripted (fun _ _ => (None, Some "provider unavailable"))
           (fun _ _ => (None, Some "provider unavailable"))
           (fun _ _ _ => (false, Some "provider unavailable")).

(** A provider that resolves the name ["alpha"] to volume ["v1"] but no
    longer finds ["v1"] by ID: the volume was removed between the two
    queries of a CreateVolume. *)
Definition staleProvider : IdempotencyProvider unit :=
  scripted (fun id name =>
              if bool_decide (name = "alpha")
              then (Some {| CapacityBytes := 0; Id := "v1"; Attributes := None |}, None)
              else (None, None))
           (fun _ _ => (None, None)) (fun _ _ _ => (false, None)).

(** A provider that knows volume ["v1"], unpublished. *)
Definition v1Provider : IdempotencyProvider unit :=
  scripted (fun id name =>
              if bool_decide (id = "v1")
              then (Some {| CapacityBytes := 0; Id := "v1"; Attributes := None |}, None)
              else (None, None))
           (fun _ _ => (None, None)) (fun _ _ _ => (false, None)).

(** A provider that finds volume ["v1"] both under the name ["alpha"] and
    under its ID. *)
Definition alphaProvider : IdempotencyProvider unit :=
  scripted (fun id name =>
              if bool_decide (name = "alpha") || bool_decide (id = "v1")
              then (Some {| CapacityBytes := 0; Id := "v1"; Attributes := None |}, None)
              else (None, None))
           (fun _ _ => (None, None)) (fun _ _ _ => (false, None)).

(** A backend with one volume, ["v1"], whose world records whether the
    volume is published to the node; the provider reads the world and the
    downstream ControllerPublishVolume writes it. *)
Definition mockDevice : gmap string string := {[ "device" := "/dev/mock" ]}.

Definition publishingProvider : IdempotencyProvider bool := {|
  GetVolumeID := fun name w => (("", None), w);
  GetVolumeInfo := fun id name w =>
    ((if bool_decide (id = "v1")
      then Some {| CapacityBytes := 0; Id := "v1"; Attributes := None |}
      else None, None), w);
  IsControllerPublished := fun volumeID nodeID (w : bool) =>
    ((if w then Some mockDevice else None, None), w);
  IsNodePublished := fun id pubVolInfo targetPath w => ((false, None), w)
|}.

Definition publishingHandler : @UnaryHandler bool :=
  fun _ _ =>
    ((ControllerPublishVolumeResponse_ptr (Some (mkResponse (Some (Response_Result_
        {| PublishVolumeInfo := Some mockDevice |})))), None), true).

Definition publishV1 : ControllerPublishVolumeRequest :=
  {| ControllerPublishVolumeId := "v1"; ControllerPublishNodeId := "node1" |}.

Definition publishInfo : UnaryServerInfo :=
  {| FullMethod := ControllerPublishVolumeMethod |}.

(** The first ControllerPublishVolume of ["v1"] on a fresh interceptor:
    its reply, the interceptor it leaves and the calls it makes. *)
Definition publishedReply : iface :=
  ControllerPublishVolumeResponse_ptr (Some (mkResponse (Some (Response_Result_
    {| PublishVolumeInfo := Some mockDevice |})))).

Definition publishedInterceptor : idempotencyInterceptor :=
  setLock (idLockPtr "v1") (mkVolLockInfo false ∅)
    (NewIdempotentInterceptor [WithIdempRequireVolumeExists]).

Definition publishedTrace : list event :=
  [EvGetVolumeInfo "v1" "" (Some {| CapacityBytes := 0; Id := "v1"; Attributes := None |})
     None;
   EvIsControllerPublished "v1" "node1" None None;
   EvHandler (ControllerPublishVolumeRequest_ptr publishV1) publishedReply None].

Definition createAlpha : CreateVolumeRequest :=
  {| Name := "alpha"; CapacityRange_ := None |}.

Definition createInfo : UnaryServerInfo := {| FullMethod := CreateVolumeMethod |}.
Definition deleteInfo : UnaryServerInfo := {| FullMethod := DeleteVolumeMethod |}.

(** A downstream handler that fails at the transport level. *)
Definition failingHandler : @UnaryHandler unit :=
  constHandler nil_iface (Some "rpc error: code = Internal").

(** A downstream CreateVolume that returns [nil, err]: behind the
    interface the reply is a nil [*csi.CreateVolumeResponse]. *)
Definition failingCreateHandler : @UnaryHandler unit :=
  constHandler (CreateVolumeResponse_ptr None) (Some "rpc error: code = Internal").

(** A downstream CreateVolume that itself answers "operation pending". *)
Definition pendingHandler : @UnaryHandler unit :=
  constHandler
    (CreateVolumeResponse_ptr (ErrCreateVolume OPERATION_PENDING_FOR_VOLUME "")) None.

(** A downstream DeleteVolume that succeeds. *)
Definition deleteOkHandler : @UnaryHandler unit :=
  constHandler
    (DeleteVolumeResponse_ptr (Some (mkResponse (Some (Response_Result_
       Build_DeleteVolumeResponse_Result))))) None.

(** The mock service with three volumes of 100 GiB. *)
Definition mockVolume (id : string) : VolumeInfo :=
  {| CapacityBytes := service.gib100; Id := id;
     Attributes := Some {[ "name" := "Mock Volume " +:+ id ]} |}.

Definition mockService : service.service :=
  service.mkService "mock" [mockVolume "1"; mockVolume "2"; mockVolume "3"] 3.


(** An interceptor that has seen a DeleteVolume of ["v1"] fail. *)
Definition failedDeleteInterceptor : idempotencyInterceptor :=
  setLock (idLockPtr "v1") (mkVolLockInfo false {[ DeleteVolumeMethod ]})
    (NewIdempotentInterceptor []).

Definition deleteV1 : DeleteVolumeRequest := {| DeleteVolumeId := "v1" |}.

Definition deleteOkReply : iface :=
  DeleteVolumeResponse_ptr (Some (mkResponse (Some (Response_Result_
    Build_DeleteVolumeResponse_Result)))).

Definition nodePublishV1 : NodePublishVolumeRequest :=
  {| NodePublishVolumeId := "v1"; NodePublishVolumeInfo := Some mockDevice;
     NodePublishTargetPath := "/mnt/v1" |}.

Definition nodePublishInfo : UnaryServerInfo :=
  {| FullMethod := "/csi.Node/NodePublishVolume" |}.

(** A search of the volume slice by volume ID that answers the first match
    and its index, and [-1] with the zero volume when there is none; and a
    join of two path elements. *)
Fixpoint findVol (vols : list VolumeInfo) (id : string) (i : Z) : Z * VolumeInfo :=
  match vols with
  | [] => ((-1)%Z, service.zeroVolumeInfo)
  | v :: vols' => if bool_decide (Id v = id) then (i, v) else findVol vols' id (i + 1)%Z
  end.

Definition findById (s : service.service) (field value : string) : Z * VolumeInfo :=
  findVol (service.vols s) value 0.

Definition pathJoin (a b : string) : string := a +:+ "/" +:+ b.

Definition mockPublishV1 : ControllerPublishVolumeRequest :=
  {| ControllerPublishVolumeId := "1"; ControllerPublishNodeId := "node1" |}.

(** The mock service after a ControllerPublishVolume of volume ["1"] to
    ["node1"]. *)
Definition mockPublishedService : service.service :=
  service.mkService "mock"
    [ {| CapacityBytes := service.gib100; Id := "1";
         Attributes := Some (<[ "node1/dev" := "/dev/mock" ]>
                               {[ "name" := "Mock Volume 1" ]}) |};
      mockVolume "2"; mockVolume "3" ] 3.

End scenarios.

(* ===================================================================== *)
(** ** Properties of the interceptor                                      *)
(* ===================================================================== *)

Import csi gocsi.

Section LockLemmas.

Lemma lockOf_setLock_eq l v i : lockOf l (setLock l v i) = v.
Proof. destruct l; cbn; by rewrite lookup_insert_eq. Qed.

Lemma lockOf_setLock_ne l l' v i : l ≠ l' -> lockOf l' (setLock l v i) = lockOf l' i.
Proof.
  intros Hne. destruct l, l'; cbn; try done; rewrite lookup_insert_ne; congruence.
Qed.

Lemma opts_setLock l v i : opts (setLock l v i) = opts i.
Proof. by destruct l. Qed.

Lemma setLock_setLock l v v' i : setLock l v (setLock l v' i) = setLock l v i.
Proof. destruct l; cbn; by rewrite insert_insert_eq. Qed.

Lemma lockOf_ensure l l' i : lockOf l' (ensure l i) = lockOf l' i.
Proof.
  destruct l as [id|n]; cbn.
  - destruct (volIDLocks i !! id) eqn:E; [done|].
    destruct l' as [id'|n']; cbn; [|done].
    destruct (decide (id = id')) as [->|];
      [by rewrite lookup_insert_eq, E|by rewrite lookup_insert_ne].
  - destruct (volNameLocks i !! n) eqn:E; [done|].
    destruct l' as [id'|n']; cbn; [done|].
    destruct (decide (n = n')) as [->|];
      [by rewrite lookup_insert_eq, E|by rewrite lookup_insert_ne].
Qed.

Lemma opts_ensure l i : opts (ensure l i) = opts i.
Proof. destruct l; cbn; case_match; done. Qed.

Lemma ensure_held l i : held (lockOf l i) = true -> ensure l i = i.
Proof. destruct l; cbn; case_match; done. Qed.

Lemma setLock_ensure l v i : setLock l v (ensure l i) = setLock l v i.
Proof. destruct l; cbn; case_match; try done; cbn; by rewrite insert_insert_eq. Qed.

Lemma lockOf_acquire l i :
  lockOf l (acquire l i) = mkVolLockInfo true (methodInErr (lockOf l i)).
Proof. apply lockOf_setLock_eq. Qed.

Lemma lockOf_acquire_ne l l' i : l ≠ l' -> lockOf l' (acquire l i) = lockOf l' i.
Proof. apply lockOf_setLock_ne. Qed.

Lemma opts_acquire l i : opts (acquire l i) = opts i.
Proof. apply opts_setLock. Qed.

Lemma inErr_acquire l m i : inErr l m (acquire l i) = inErr l m i.
Proof. unfold inErr. by rewrite lockOf_acquire. Qed.

Lemma inErr_acquire_ne l l' m i : l ≠ l' -> inErr l' m (acquire l i) = inErr l' m i.
Proof. intros Hne. unfold inErr. by rewrite lockOf_acquire_ne. Qed.

Lemma Unlock_acquire l i : Unlock l (acquire l i) = Unlock l i.
Proof.
  unfold Unlock. rewrite lockOf_acquire. cbn. unfold acquire. by rewrite setLock_setLock.
Qed.

Lemma lockOf_Unlock l i :
  lockOf l (Unlock l i) = mkVolLockInfo false (methodInErr (lockOf l i)).
Proof. apply lockOf_setLock_eq. Qed.

Lemma inErr_Unlock l m i : inErr l m (Unlock l i) = inErr l m i.
Proof. unfold inErr. by rewrite lockOf_Unlock. Qed.

Lemma inErr_true l m i : inErr l m i = true <-> m ∈ methodInErr (lockOf l i).
Proof. unfold inErr. by rewrite bool_decide_eq_true. Qed.

Lemma inErr_false l m i : inErr l m i = false <-> m ∉ methodInErr (lockOf l i).
Proof. unfold inErr. by rewrite bool_decide_eq_false. Qed.

Lemma lockOf_markInErr l m i :
  lockOf l (markInErr l m i)
  = mkVolLockInfo (held (lockOf l i)) ({[m]} ∪ methodInErr (lockOf l i)).
Proof. apply lockOf_setLock_eq. Qed.

Lemma lockOf_unmarkInErr l m i :
  lockOf l (unmarkInErr l m i)
  = mkVolLockInfo (held (lockOf l i)) (methodInErr (lockOf l i) ∖ {[m]}).
Proof. apply lockOf_setLock_eq. Qed.

Lemma lockOf_hooked l m b i :
  lockOf l (hooked l m b i)
  = mkVolLockInfo (held (lockOf l i))
      (if b then {[m]} ∪ methodInErr (lockOf l i)
       else methodInErr (lockOf l i) ∖ {[m]}).
Proof.
  unfold hooked. destruct b; [apply lockOf_markInErr|].
  destruct (inErr l m i) eqn:E; [apply lockOf_unmarkInErr|].
  apply inErr_false in E. destruct (lockOf l i) as [h s]; cbn in *.
  f_equal. symmetry. apply difference_disjoint_L, disjoint_singleton_r, E.
Qed.

Lemma exitHook_eq g l info res resErr i :
  exitHook g l info res resErr i
  = (b ← hookFailed g res resErr; Some (hooked l (FullMethod info) b i)).
Proof.
  unfold exitHook, hookFailed, hooked.
  destruct resErr; cbn; [done|].
  destruct (g res) as [[e|]|]; cbn; try done; by case_match.
Qed.

Lemma runDefers_nil res resErr i : runDefers [] res resErr i = (false, i).
Proof. reflexivity. Qed.

Lemma runDefers_unlock_exitHook g l info res resErr i :
  runDefers [deferUnlock l; exitHook g l info] res resErr (acquire l i)
  = match hookFailed g res resErr with
    | Some b => (false, hooked l (FullMethod info) b (Unlock l i))
    | None => (true, Unlock l i)
    end.
Proof.
  cbn [runDefers deferUnlock]. rewrite Unlock_acquire, exitHook_eq.
  destruct (hookFailed g res resErr); reflexivity.
Qed.

Lemma opts_Unlock l i : opts (Unlock l i) = opts i.
Proof. apply opts_setLock. Qed.

Lemma opts_hooked l m b i : opts (hooked l m b i) = opts i.
Proof.
  unfold hooked, markInErr, unmarkInErr.
  destruct b; [|destruct (inErr l m i)]; by rewrite ?opts_setLock.
Qed.

(** After an exit on which the hook saw no failure, the lock is free and
    the method is not in error on it. *)
Lemma hooked_Unlock_clean l m i :
  held (lockOf l (hooked l m false (Unlock l i))) = false
  /\ inErr l m (hooked l m false (Unlock l i)) = false
  /\ opts (hooked l m false (Unlock l i)) = opts i.
Proof.
  rewrite opts_hooked, opts_Unlock. split; [|split]; [| |done].
  - rewrite lockOf_hooked, lockOf_Unlock. done.
  - apply inErr_false. rewrite lockOf_hooked, lockOf_Unlock. cbn.
    rewrite elem_of_difference, elem_of_singleton. tauto.
Qed.

(** The name lock's hook panics whenever the error returned is not nil and
    the reply is not a CreateVolume reply with an embedded error: it then
    asserts the type of a nil interface, or dereferences the nil [*csi.Error]
    that [GetError] answers. *)
Lemma createVolume_nameHook_panics nl info res e i :
  CreateVolumeResponse_GetError res = None
  \/ CreateVolumeResponse_GetError res = Some None ->
  createVolume_nameHook nl info res (Some e) i = None.
Proof.
  intros [H|H]; unfold createVolume_nameHook; cbn; by rewrite H.
Qed.

(** The name lock's hook does not panic on a CreateVolume reply that comes
    with a nil error. *)
Lemma createVolume_nameHook_total nl info reply i :
  exists i', createVolume_nameHook nl info (CreateVolumeResponse_ptr reply) None i = Some i'.
Proof.
  unfold createVolume_nameHook. cbn.
  destruct (GetError reply) as [[[[]|]]|]; cbn; repeat case_match; eauto.
Qed.

(** On an "operation pending" reply the name lock's hook changes nothing. *)
Lemma createVolume_nameHook_pending nl info reply err desc i :
  GetError reply = Some (pendingError desc) ->
  createVolume_nameHook nl info (CreateVolumeResponse_ptr reply) err i = Some i.
Proof.
  intros H. unfold createVolume_nameHook. cbn. rewrite H. by destruct err.
Qed.

Lemma lockOf_Unlock_ne l l' i : l ≠ l' -> lockOf l' (Unlock l i) = lockOf l' i.
Proof. apply lockOf_setLock_ne. Qed.

Lemma lockOf_hooked_ne l l' m b i : l ≠ l' -> lockOf l' (hooked l m b i) = lockOf l' i.
Proof.
  intros Hne. unfold hooked, markInErr, unmarkInErr.
  destruct b; [|destruct (inErr l m i)]; by rewrite ?lockOf_setLock_ne.
Qed.



End LockLemmas.

Lemma tuple4_inj {A B C D} (a a' : A) (b b' : B) (c c' : C) (d d' : D) :
  (a, b, c, d) = (a', b', c', d') -> a = a' /\ b = b' /\ c = c' /\ d = d'.
Proof. by intros [= -> -> -> ->]. Qed.

Lemma Returned_inj res resErr res' resErr' :
  Returned res resErr = Returned res' resErr' -> res = res' /\ resErr = resErr'.
Proof. by intros [= -> ->]. Qed.

(** Running the primitives on an explicit frame. *)
Section StepLemmas.
Context {W : Type} {p : IdempotencyProvider W}.

Lemma lockWithID_mk id i (w : W) t d :
  lockWithID id (mkFrame i w t d)
  = (inl (idLockPtr id), mkFrame (ensure (idLockPtr id) i) w t d).
Proof. reflexivity. Qed.

Lemma lockWithName_mk name i (w : W) t d :
  lockWithName name (mkFrame i w t d)
  = (inl (nameLockPtr name), mkFrame (ensure (nameLockPtr name) i) w t d).
Proof. reflexivity. Qed.

Lemma TryLock_mk l z i (w : W) t d :
  TryLock l z (mkFrame (ensure l i) w t d)
  = if held (lockOf l i) then (inl false, mkFrame i w t d)
    else (inl true, mkFrame (acquire l i) w t d).
Proof.
  unfold TryLock; cbn [icpt world trace defers]. rewrite lockOf_ensure.
  destruct (held (lockOf l i)) eqn:E; [by rewrite ensure_held|].
  unfold acquire; by rewrite setLock_ensure.
Qed.

End StepLemmas.

(** Symbolic execution of a procedure call: [mrun] follows the path the
    hypotheses determine, [mall] splits on every test it meets. *)
Ltac munfold :=
  cbv [exec handle controllerPublishVolume controllerUnpublishVolume createVolume
       deleteVolume nodePublishVolume nodeUnpublishVolume
       mbind M_bind mret M_ret when Return defer getOpts methodInErr_has
       return_handler p_GetVolumeInfo p_IsControllerPublished p_IsNodePublished log].

Ltac mred :=
  cbn beta iota zeta delta
    [icpt world trace defers negb isNil fst snd app
     outcome_of icpt_of world_of trace_of].

Ltac mstep :=
  first
  [ rewrite lockWithID_mk
  | rewrite lockWithName_mk
  | rewrite TryLock_mk
  | rewrite opts_ensure
  | rewrite opts_acquire
  | rewrite inErr_acquire
  | rewrite lockOf_acquire_ne by done
  | rewrite inErr_acquire_ne by done
  | rewrite runDefers_nil
  | rewrite runDefers_unlock_exitHook
  | match goal with
    | H : ?c = _ |- context [if ?c then _ else _] => rewrite H
    | H : ?c = _ |- context [match ?c with _ => _ end] => rewrite H
    | |- context [hookFailed ?g ?r ?e] =>
        first [ is_var r; is_var e; fail 1
              | let c := eval cbv in (hookFailed g r e) in
                change (hookFailed g r e) with c ]
    end ].

Ltac mrun := munfold; repeat (mred; mstep); mred.

Ltac msplit :=
  match goal with
  | |- context [if held (lockOf ?l ?i) then _ else _] =>
      destruct (held (lockOf l i)) eqn:?
  | |- context [if inErr ?l ?m ?i then _ else _] => destruct (inErr l m i) eqn:?
  | |- context [if requireVolume ?o then _ else _] => destruct (requireVolume o) eqn:?
  | |- context [GetVolumeInfo ?a ?b ?w] =>
      destruct (GetVolumeInfo a b w) as [[[?|] [?|]] ?] eqn:?
  | |- context [IsControllerPublished ?a ?b ?w] =>
      destruct (IsControllerPublished a b w) as [[[?|] [?|]] ?] eqn:?
  | |- context [IsNodePublished ?a ?b ?c ?w] =>
      destruct (IsNodePublished a b c w) as [[[|] [?|]] ?] eqn:?
  | h : UnaryHandler |- context [?h' ?r ?w] =>
      constr_eq h h'; destruct (h r w) as [[? ?] ?] eqn:?
  | |- context [hookFailed ?g ?r ?e] =>
      destruct (hookFailed g r e) as [[|]|] eqn:?
  end.

Ltac mall := munfold; repeat (mred; first [mstep | msplit]); mred.

(** An event cannot be found in a trace that does not hold it. *)
Ltac not_in_trace H :=
  repeat (apply elem_of_cons in H as [H|H]; [try discriminate H|]);
  try (apply elem_of_nil in H; contradiction).

Section InterceptorProperties.
Context {W : Type} {p : IdempotencyProvider W}.
Implicit Types (i : idempotencyInterceptor) (w : W) (info : UnaryServerInfo)
  (handler : @UnaryHandler W).

(** C1.  For each of the six covered procedures: when the try-lock of the
    procedure's lock key times out (the mutex of that key is held), the
    procedure returns that RPC's reply with an embedded
    OPERATION_PENDING_FOR_VOLUME error and a nil error; the trace of the
    call is empty, so neither the provider nor the downstream handler was
    invoked; the interceptor and the world are as before. *)
Theorem C1_lock_timeout_returns_pending i w info handler :
  (forall req, held (lockOf (nameLockPtr (Name req)) i) = true ->
     exec (createVolume req info handler) i w
     = (Returned (CreateVolumeResponse_ptr
                    (ErrCreateVolume OPERATION_PENDING_FOR_VOLUME "")) None, i, w, []))
  /\ (forall req, held (lockOf (idLockPtr (DeleteVolumeId req)) i) = true ->
     exec (deleteVolume req info handler) i w
     = (Returned (DeleteVolumeResponse_ptr
                    (ErrDeleteVolume OPERATION_PENDING_FOR_VOLUME "")) None, i, w, []))
  /\ (forall req, held (lockOf (idLockPtr (ControllerPublishVolumeId req)) i) = true ->
     exec (controllerPublishVolume req info handler) i w
     = (Returned (ControllerPublishVolumeResponse_ptr
                    (ErrControllerPublishVolume OPERATION_PENDING_FOR_VOLUME "")) None,
        i, w, []))
  /\ (forall req, held (lockOf (idLockPtr (ControllerUnpublishVolumeId req)) i) = true ->
     exec (controllerUnpublishVolume req info handler) i w
     = (Returned (ControllerUnpublishVolumeResponse_ptr
                    (ErrControllerUnpublishVolume OPERATION_PENDING_FOR_VOLUME "")) None,
        i, w, []))
  /\ (forall req, held (lockOf (idLockPtr (NodePublishVolumeId req)) i) = true ->
     exec (nodePublishVolume req info handler) i w
     = (Returned (NodePublishVolumeResponse_ptr
                    (ErrNodePublishVolume OPERATION_PENDING_FOR_VOLUME "")) None, i, w, []))
  /\ (forall req, held (lockOf (idLockPtr (NodeUnpublishVolumeId req)) i) = true ->
     exec (nodeUnpublishVolume req info handler) i w
     = (Returned (NodeUnpublishVolumeResponse_ptr
                    (ErrNodeUnpublishVolume OPERATION_PENDING_FOR_VOLUME "")) None, i, w, [])).
Proof.
  repeat split; intros req Hheld; mrun; reflexivity.
Qed.


(** C6, as the code has it.  A DeleteVolume that gets past the error-bypass
    check queries the provider's GetVolumeInfo exactly once, whether
    require-volume is set or not: when it is set, the answer of the existence
    precheck also decides idempotency. *)
Theorem C6_deleteVolume_queries_once i w req info handler :
  held (lockOf (idLockPtr (DeleteVolumeId req)) i) = false ->
  inErr (idLockPtr (DeleteVolumeId req)) (FullMethod info) i = false ->
  count is_GetVolumeInfo (trace_of (exec (deleteVolume req info handler) i w)) = 1%nat.
Proof.
  intros Hfree Hclean. mall; reflexivity.
Qed.

(** C7.  For DeleteVolume, ControllerPublishVolume,
    ControllerUnpublishVolume, NodePublishVolume and NodeUnpublishVolume:
    when require-volume is set, the lock of the request's volume ID is free
    and the method is not marked in error on it, and the provider's
    GetVolumeInfo for the request's volume ID answers null without error,
    the call makes that query and no other call, so the downstream handler
    is not invoked, and it returns that RPC's reply with an embedded
    VOLUME_DOES_NOT_EXIST error and a nil error. *)
Theorem C7_require_volume_absent i w info handler w1 :
  requireVolume (opts i) = true ->
  (forall req,
     let id := DeleteVolumeId req in
     let r := exec (deleteVolume req info handler) i w in
     held (lockOf (idLockPtr id) i) = false ->
     inErr (idLockPtr id) (FullMethod info) i = false ->
     GetVolumeInfo id "" w = ((None, None), w1) ->
     outcome_of r = Returned (DeleteVolumeResponse_ptr
                                (ErrDeleteVolume VOLUME_DOES_NOT_EXIST "")) None
     /\ trace_of r = [EvGetVolumeInfo id "" None None]
     /\ count is_handler (trace_of r) = 0%nat)
  /\ (forall req,
     let id := ControllerPublishVolumeId req in
     let r := exec (controllerPublishVolume req info handler) i w in
     held (lockOf (idLockPtr id) i) = false ->
     inErr (idLockPtr id) (FullMethod info) i = false ->
     GetVolumeInfo id "" w = ((None, None), w1) ->
     outcome_of r = Returned (ControllerPublishVolumeResponse_ptr
                                (ErrControllerPublishVolume VOLUME_DOES_NOT_EXIST "")) None
     /\ trace_of r = [EvGetVolumeInfo id "" None None]
     /\ count is_handler (trace_of r) = 0%nat)
  /\ (forall req,
     let id := ControllerUnpublishVolumeId req in
     let r := exec (controllerUnpublishVolume req info handler) i w in
     held (lockOf (idLockPtr id) i) = false ->
     inErr (idLockPtr id) (FullMethod info) i = false ->
     GetVolumeInfo id "" w = ((None, None), w1) ->
     outcome_of r = Returned (ControllerUnpublishVolumeResponse_ptr
                                (ErrControllerUnpublishVolume VOLUME_DOES_NOT_EXIST "")) None
     /\ trace_of r = [EvGetVolumeInfo id "" None None]
     /\ count is_handler (trace_of r) = 0%nat)
  /\ (forall req,
     let id := NodePublishVolumeId req in
     let r := exec (nodePublishVolume req info handler) i w in
     held (lockOf (idLockPtr id) i) = false ->
     inErr (idLockPtr id) (FullMethod info) i = false ->
     GetVolumeInfo id "" w = ((None, None), w1) ->
     outcome_of r = Returned (NodePublishVolumeResponse_ptr
                                (ErrNodePublishVolume VOLUME_DOES_NOT_EXIST "")) None
     /\ trace_of r = [EvGetVolumeInfo id "" None None]
     /\ count is_handler (trace_of r) = 0%nat)
  /\ (forall req,
     let id := NodeUnpublishVolumeId req in
     let r := exec (nodeUnpublishVolume req info handler) i w in
     held (lockOf (idLockPtr id) i) = false ->
     inErr (idLockPtr id) (FullMethod info) i = false ->
     GetVolumeInfo id "" w = ((None, None), w1) ->
     outcome_of r = Returned (NodeUnpublishVolumeResponse_ptr
                                (ErrNodeUnpublishVolume VOLUME_DOES_NOT_EXIST "")) None
     /\ trace_of r = [EvGetVolumeInfo id "" None None]
     /\ count is_handler (trace_of r) = 0%nat).
Proof.
  intros Hrv.
  split; [|split; [|split; [|split]]]; intros req id r Hfree Hclean Hq; subst id r;
    mrun; done.
Qed.

(** The error bypass of the five id-keyed procedures: with the lock free
    and the method marked in error, the handler is invoked, the provider is
    not, and the handler's results are returned (if some result is of the
    RPC's response type or the error is not nil, as the exit hook's type
    assertion requires). *)
Lemma error_bypass_id_keyed i w info handler res err w' :
  (forall req, held (lockOf (idLockPtr (DeleteVolumeId req)) i) = false ->
     inErr (idLockPtr (DeleteVolumeId req)) (FullMethod info) i = true ->
     handler (DeleteVolumeRequest_ptr req) w = ((res, err), w') ->
     hookFailed DeleteVolumeResponse_GetError res err <> None ->
     let r := exec (deleteVolume req info handler) i w in
     outcome_of r = Returned res err
     /\ trace_of r = [EvHandler (DeleteVolumeRequest_ptr req) res err])
  /\ (forall req, held (lockOf (idLockPtr (ControllerPublishVolumeId req)) i) = false ->
     inErr (idLockPtr (ControllerPublishVolumeId req)) (FullMethod info) i = true ->
     handler (ControllerPublishVolumeRequest_ptr req) w = ((res, err), w') ->
     hookFailed ControllerPublishVolumeResponse_GetError res err <> None ->
     let r := exec (controllerPublishVolume req info handler) i w in
     outcome_of r = Returned res err
     /\ trace_of r = [EvHandler (ControllerPublishVolumeRequest_ptr req) res err])
  /\ (forall req, held (lockOf (idLockPtr (ControllerUnpublishVolumeId req)) i) = false ->
     inErr (idLockPtr (ControllerUnpublishVolumeId req)) (FullMethod info) i = true ->
     handler (ControllerUnpublishVolumeRequest_ptr req) w = ((res, err), w') ->
     hookFailed ControllerUnpublishVolumeResponse_GetError res err <> None ->
     let r := exec (controllerUnpublishVolume req info handler) i w in
     outcome_of r = Returned res err
     /\ trace_of r = [EvHandler (ControllerUnpublishVolumeRequest_ptr req) res err])
  /\ (forall req, held (lockOf (idLockPtr (NodePublishVolumeId req)) i) = false ->
     inErr (idLockPtr (NodePublishVolumeId req)) (FullMethod info) i = true ->
     handler (NodePublishVolumeRequest_ptr req) w = ((res, err), w') ->
     hookFailed NodePublishVolumeResponse_GetError res err <> None ->
     let r := exec (nodePublishVolume req info handler) i w in
     outcome_of r = Returned res err
     /\ trace_of r = [EvHandler (NodePublishVolumeRequest_ptr req) res err])
  /\ (forall req, held (lockOf (idLockPtr (NodeUnpublishVolumeId req)) i) = false ->
     inErr (idLockPtr (NodeUnpublishVolumeId req)) (FullMethod info) i = true ->
     handler (NodeUnpublishVolumeRequest_ptr req) w = ((res, err), w') ->
     hookFailed NodeUnpublishVolumeResponse_GetError res err <> None ->
     let r := exec (nodeUnpublishVolume req info handler) i w in
     outcome_of r = Returned res err
     /\ trace_of r = [EvHandler (NodeUnpublishVolumeRequest_ptr req) res err]).
Proof.
  split; [|split; [|split; [|split]]]; intros req Hfree Hmarked Hh Hhook r; subst r;
    mrun; (destruct (hookFailed _ res err); [done|contradiction]).
Qed.

(** The error bypass of CreateVolume: the handler is invoked and the
    provider is not; the handler's reply is returned when it comes with a
    nil error. *)
Lemma createVolume_bypass_trace i w req info handler res err w' :
  held (lockOf (nameLockPtr (Name req)) i) = false ->
  inErr (nameLockPtr (Name req)) (FullMethod info) i = true ->
  handler (CreateVolumeRequest_ptr req) w = ((res, err), w') ->
  let r := exec (createVolume req info handler) i w in
  trace_of r = [EvHandler (CreateVolumeRequest_ptr req) res err]
  /\ (forall reply, res = CreateVolumeResponse_ptr reply -> err = None ->
        outcome_of r = Returned res err).
Proof.
  intros Hfree Hmarked Hh r; subst r. mrun. split.
  - by destruct (runDefers _ _ _ _).
  - intros reply -> ->. cbn [runDefers deferUnlock].
    destruct (createVolume_nameHook_total (nameLockPtr (Name req)) info reply
                (Unlock (nameLockPtr (Name req)) (acquire (nameLockPtr (Name req)) i)))
      as [i' ->]. done.
Qed.

(** The exit hook of the five id-keyed procedures: on a return with the
    lock acquired, the method is marked in error on the lock's record when
    the error is not nil or the reply carries an embedded error, and
    unmarked otherwise; the lock is released. *)
Lemma exit_hook_id_keyed i w info handler res err :
  let post g l r :=
    exists failed, hookFailed g res err = Some failed
      /\ lockOf l (icpt_of r)
         = mkVolLockInfo false
             (if failed : bool then {[FullMethod info]} ∪ methodInErr (lockOf l i)
              else methodInErr (lockOf l i) ∖ {[FullMethod info]}) in
  (forall req, held (lockOf (idLockPtr (DeleteVolumeId req)) i) = false ->
     let r := exec (deleteVolume req info handler) i w in
     outcome_of r = Returned res err ->
     post DeleteVolumeResponse_GetError (idLockPtr (DeleteVolumeId req)) r)
  /\ (forall req, held (lockOf (idLockPtr (ControllerPublishVolumeId req)) i) = false ->
     let r := exec (controllerPublishVolume req info handler) i w in
     outcome_of r = Returned res err ->
     post ControllerPublishVolumeResponse_GetError
       (idLockPtr (ControllerPublishVolumeId req)) r)
  /\ (forall req, held (lockOf (idLockPtr (ControllerUnpublishVolumeId req)) i) = false ->
     let r := exec (controllerUnpublishVolume req info handler) i w in
     outcome_of r = Returned res err ->
     post ControllerUnpublishVolumeResponse_GetError
       (idLockPtr (ControllerUnpublishVolumeId req)) r)
  /\ (forall req, held (lockOf (idLockPtr (NodePublishVolumeId req)) i) = false ->
     let r := exec (nodePublishVolume req info handler) i w in
     outcome_of r = Returned res err ->
     post NodePublishVolumeResponse_GetError (idLockPtr (NodePublishVolumeId req)) r)
  /\ (forall req, held (lockOf (idLockPtr (NodeUnpublishVolumeId req)) i) = false ->
     let r := exec (nodeUnpublishVolume req info handler) i w in
     outcome_of r = Returned res err ->
     post NodeUnpublishVolumeResponse_GetError (idLockPtr (NodeUnpublishVolumeId req)) r).
Proof.
  intros post.
  split; [|split; [|split; [|split]]]; intros req Hfree r; subst r; mall;
    intros Hout; try discriminate Hout;
    apply Returned_inj in Hout as [<- <-]; subst post; mred;
    (eexists; split; [first [eassumption|reflexivity]|]);
    by rewrite lockOf_hooked, lockOf_Unlock.
Qed.

(** A CreateVolume that acquired the name lock and returns a reply with an
    embedded OPERATION_PENDING_FOR_VOLUME error releases the name lock with
    its method-in-error set as it was. *)
Lemma createVolume_pending_keeps_name_lock i w req info handler reply err desc :
  let nameLock := nameLockPtr (Name req) in
  let r := exec (createVolume req info handler) i w in
  held (lockOf nameLock i) = false ->
  outcome_of r = Returned (CreateVolumeResponse_ptr reply) err ->
  GetError reply = Some (pendingError desc) ->
  lockOf nameLock (icpt_of r) = mkVolLockInfo false (methodInErr (lockOf nameLock i)).
Proof.
  intros nameLock r Hfree. subst nameLock r.
  mall; cbn [runDefers deferUnlock]; rewrite ?Unlock_acquire, ?exitHook_eq;
    repeat match goal with
      | |- context [hookFailed ?g ?r ?e] => destruct (hookFailed g r e) as [?|]
      end;
    cbn [mbind option_bind];
    match goal with
    | |- context [createVolume_nameHook ?l ?n ?r ?e ?s] =>
        destruct (createVolume_nameHook l n r e s) eqn:Hhook
    end;
    mred; intros Hout Hpending; try discriminate Hout;
    apply Returned_inj in Hout as [Hres ?]; try discriminate Hres;
    try (injection Hres as ?); subst;
    try (cbn in Hpending; discriminate Hpending);
    rewrite (createVolume_nameHook_pending _ _ _ _ _ _ Hpending) in Hhook;
    apply (inj Some) in Hhook; subst;
    by rewrite lockOf_Unlock, ?lockOf_hooked_ne, ?lockOf_Unlock_ne, ?lockOf_acquire.
Qed.

(** What a successful ControllerPublishVolume leaves behind: the volume's
    lock free and unmarked, and at most one invocation of the handler. *)
Lemma controllerPublishVolume_success_post i w req info handler res i1 w1 t1 :
  exec (controllerPublishVolume req info handler) i w = (Returned res None, i1, w1, t1) ->
  ControllerPublishVolumeResponse_GetError res = Some None ->
  held (lockOf (idLockPtr (ControllerPublishVolumeId req)) i1) = false
  /\ inErr (idLockPtr (ControllerPublishVolumeId req)) (FullMethod info) i1 = false
  /\ opts i1 = opts i
  /\ (count is_handler t1 <= 1)%nat.
Proof.
  intros Hexec Hok. revert Hexec.
  assert (Hf : hookFailed ControllerPublishVolumeResponse_GetError res None = Some false)
    by (unfold hookFailed; rewrite Hok; done).
  mall; intros Heq; apply tuple4_inj in Heq as (Hout & <- & <- & <-);
    try discriminate Hout; apply Returned_inj in Hout as [? ?]; subst;
    try discriminate;
    try (cbv in Hok; discriminate Hok);
    try (rewrite Hf in *; discriminate);
    (split; [|split; [|split]]; [apply hooked_Unlock_clean ..|vm_compute; lia]).
Qed.

(** C8.  Two successive ControllerPublishVolume calls with identical
    arguments, the first of which succeeds, where the provider then reports
    the volume (if it is asked for it) and reports it published with the
    publish info the first reply carried: the second call returns a reply
    with the same publish_volume_info, and the downstream handler is invoked
    at most once across the two calls. *)
Theorem C8_controllerPublishVolume_idempotent i w req info handler res1 i1 w1 t1 :
  let id := ControllerPublishVolumeId req in
  let node := ControllerPublishNodeId req in
  let w1' := if requireVolume (opts i) then (GetVolumeInfo id "" w1).2 else w1 in
  let r2 := exec (controllerPublishVolume req info handler) i1 w1 in
  exec (controllerPublishVolume req info handler) i w = (Returned res1 None, i1, w1, t1) ->
  ControllerPublishVolumeResponse_GetError res1 = Some None ->
  (requireVolume (opts i) = true ->
   exists v, (GetVolumeInfo id "" w1).1 = (Some v, None)) ->
  (IsControllerPublished id node w1').1 = (Some (publish_volume_info res1), None) ->
  exists res2,
    outcome_of r2 = Returned res2 None
    /\ publish_volume_info res2 = publish_volume_info res1
    /\ (count is_handler (t1 ++ trace_of r2) <= 1)%nat.
Proof.
  intros id node w1' r2 Hexec Hok Hexists Hpub.
  destruct (controllerPublishVolume_success_post _ _ _ _ _ _ _ _ _ Hexec Hok)
    as (Hfree & Hclean & Hopts & Hcount).
  exists (ControllerPublishVolumeResponse_ptr (Some (mkResponse (Some (Response_Result_
            {| PublishVolumeInfo := Some (publish_volume_info res1) |}))))).
  assert (Hlen : forall t2, count is_handler t2 = 0%nat ->
                   (count is_handler (t1 ++ t2) <= 1)%nat).
  { intros t2 H0. unfold count in *. rewrite filter_app, length_app. lia. }
  subst r2 w1' id node. rewrite <- Hopts in Hexists, Hpub.
  destruct (requireVolume (opts i1)) eqn:Hrv.
  - destruct Hexists as [v Hv]; [done|].
    destruct (GetVolumeInfo _ "" w1) as [[vi err] w1'] eqn:Hget.
    cbn in Hv, Hpub. injection Hv as -> ->.
    destruct (IsControllerPublished _ _ w1') as [[m err] w2] eqn:Hicp.
    cbn in Hpub. injection Hpub as -> ->.
    mrun. split; [done|]. split; [done|]. by apply Hlen.
  - destruct (IsControllerPublished _ _ w1) as [[m err] w2] eqn:Hicp.
    cbn in Hpub. injection Hpub as -> ->.
    mrun. split; [done|]. split; [done|]. by apply Hlen.
Qed.

End InterceptorProperties.

(** *** The properties at concrete collaborators *)

(** C1 at a DeleteVolume of ["v1"] while another request holds its lock. *)
Lemma C1_lock_timeout_returns_pending_witness :
  let info := scenarios.deleteInfo in
  let handler := scenarios.deleteOkHandler in
  let req := {| DeleteVolumeId := "v1" |} in
  held (lockOf (idLockPtr (DeleteVolumeId req)) scenarios.busyInterceptor) = true
  /\ exec (deleteVolume (p := scenarios.emptyProvider) req info handler)
       scenarios.busyInterceptor tt
     = (Returned (DeleteVolumeResponse_ptr
                    (ErrDeleteVolume OPERATION_PENDING_FOR_VOLUME "")) None,
        scenarios.busyInterceptor, tt, []).
Proof.
  intros info handler req.
  assert (Hheld : held (lockOf (idLockPtr (DeleteVolumeId req)) scenarios.busyInterceptor)
                  = true) by (vm_compute; reflexivity).
  split; [exact Hheld|].
  exact (proj1 (proj2 (C1_lock_timeout_returns_pending (p := scenarios.emptyProvider)
                         scenarios.busyInterceptor tt info handler)) req Hheld).
Defined.

(** C2, evaluated where it fails.  CreateVolume of a name whose lock is
    free and marked in error, with a downstream handler that fails at the
    transport level: the handler is invoked and the provider is not, but the
    call does not return the handler's result; the name lock's exit hook
    panics on the reply, which has no embedded error to inspect. *)
Theorem C2_createVolume_bypass_panics_on_handler_error :
  exec (createVolume (p := scenarios.emptyProvider)
          scenarios.createAlpha scenarios.createInfo scenarios.failingCreateHandler)
       scenarios.poisonedInterceptor tt
  = (Panicked,
     scenarios.poisonedInterceptor,
     tt,
     [EvHandler (CreateVolumeRequest_ptr scenarios.createAlpha)
        (CreateVolumeResponse_ptr None) (Some "rpc error: code = Internal")]).
Proof. vm_compute. reflexivity. Qed.


(** C4, evaluated where it fails.  CreateVolume on a fresh interceptor with
    a provider whose lookup fails: the body returns the provider's error,
    but the name lock's exit hook panics before it marks the method, so the
    call ends in a panic and the method is not in error afterwards. *)
Theorem C4_createVolume_error_exit_panics_unmarked :
  let r := exec (createVolume (p := scenarios.failingProvider)
                   scenarios.createAlpha scenarios.createInfo scenarios.failingHandler)
                (NewIdempotentInterceptor []) tt in
  outcome_of r = Panicked
  /\ trace_of r = [EvGetVolumeInfo "" "alpha" None (Some "provider unavailable")]
  /\ inErr (nameLockPtr "alpha") scenarios.CreateVolumeMethod (icpt_of r) = false.
Proof. vm_compute. repeat split; reflexivity. Qed.

(** C5, evaluated where it fails.  CreateVolume of a name the provider
    resolves to ["v1"], which it no longer finds by ID, with a downstream
    handler that answers OPERATION_PENDING_FOR_VOLUME: the call returns that
    reply, and the ID lock of ["v1"], unmarked before, is marked in error for
    the method afterwards (the name lock is not). *)
Theorem C5_createVolume_pending_marks_id_lock :
  let i := NewIdempotentInterceptor [] in
  let r := exec (createVolume (p := scenarios.staleProvider)
                   scenarios.createAlpha scenarios.createInfo scenarios.pendingHandler)
                i tt in
  outcome_of r
  = Returned (CreateVolumeResponse_ptr (ErrCreateVolume OPERATION_PENDING_FOR_VOLUME ""))
             None
  /\ inErr (idLockPtr "v1") scenarios.CreateVolumeMethod i = false
  /\ inErr (idLockPtr "v1") scenarios.CreateVolumeMethod (icpt_of r) = true
  /\ inErr (nameLockPtr "alpha") scenarios.CreateVolumeMethod (icpt_of r) = false.
Proof. vm_compute. repeat split; reflexivity. Qed.

(** C6 as claimed fails.  With require-volume set and volume ["v1"] known
    to the provider, a DeleteVolume of ["v1"] gets past the error-bypass check
    and queries GetVolumeInfo once, not twice. *)
Lemma C6_deleteVolume_require_volume_not_twice :
  let i := NewIdempotentInterceptor [WithIdempRequireVolumeExists] in
  let req := {| DeleteVolumeId := "v1" |} in
  let r := exec (deleteVolume (p := scenarios.v1Provider)
                   req scenarios.deleteInfo scenarios.deleteOkHandler) i tt in
  requireVolume (opts i) = true
  /\ held (lockOf (idLockPtr "v1") i) = false
  /\ inErr (idLockPtr "v1") scenarios.DeleteVolumeMethod i = false
  /\ count is_GetVolumeInfo (trace_of r) <> 2%nat.
Proof. vm_compute. repeat split; discriminate. Qed.

(** C6 as amended, at the same DeleteVolume. *)
Lemma C6_deleteVolume_queries_once_witness :
  let i := NewIdempotentInterceptor [WithIdempRequireVolumeExists] in
  let req := {| DeleteVolumeId := "v1" |} in
  (held (lockOf (idLockPtr "v1") i) = false
   /\ inErr (idLockPtr "v1") scenarios.DeleteVolumeMethod i = false)
  /\ count is_GetVolumeInfo
       (trace_of (exec (deleteVolume (p := scenarios.v1Provider)
                          req scenarios.deleteInfo scenarios.deleteOkHandler) i tt))
     = 1%nat.
Proof.
  intros i req. split; [split; vm_compute; reflexivity|].
  apply (C6_deleteVolume_queries_once (p := scenarios.v1Provider));
    vm_compute; reflexivity.
Defined.

(** C7 at a ControllerUnpublishVolume of a volume the provider does not
    know, with require-volume set. *)
Lemma C7_require_volume_absent_witness :
  let i := NewIdempotentInterceptor [WithIdempRequireVolumeExists] in
  let req := {| ControllerUnpublishVolumeId := "v3"; ControllerUnpublishNodeId := "n" |} in
  let info := {| FullMethod := "/csi.Controller/ControllerUnpublishVolume" |} in
  let r := exec (controllerUnpublishVolume (p := scenarios.emptyProvider)
                   req info scenarios.failingHandler) i tt in
  (requireVolume (opts i) = true
   /\ held (lockOf (idLockPtr "v3") i) = false
   /\ inErr (idLockPtr "v3") (FullMethod info) i = false
   /\ GetVolumeInfo (IdempotencyProvider := scenarios.emptyProvider) "v3" "" tt
      = ((None, None), tt))
  /\ outcome_of r = Returned (ControllerUnpublishVolumeResponse_ptr
                                (ErrControllerUnpublishVolume VOLUME_DOES_NOT_EXIST ""))
                             None
  /\ trace_of r = [EvGetVolumeInfo "v3" "" None None]
  /\ count is_handler (trace_of r) = 0%nat.
Proof.
  intros i req info r.
  assert (Hrv : requireVolume (opts i) = true) by (vm_compute; reflexivity).
  assert (Hfree : held (lockOf (idLockPtr "v3") i) = false) by reflexivity.
  assert (Hclean : inErr (idLockPtr "v3") (FullMethod info) i = false) by reflexivity.
  assert (Hq : GetVolumeInfo (IdempotencyProvider := scenarios.emptyProvider) "v3" "" tt
               = ((None, None), tt)) by reflexivity.
  split; [done|].
  exact (proj1 (proj2 (proj2 (C7_require_volume_absent (p := scenarios.emptyProvider)
                                i tt info scenarios.failingHandler tt Hrv)))
           req Hfree Hclean Hq).
Defined.

(** C8 at two ControllerPublishVolume calls of ["v1"] on a backend whose
    provider reports what the downstream handler did. *)
Lemma C8_controllerPublishVolume_idempotent_witness :
  let call :=
    exec (controllerPublishVolume (p := scenarios.publishingProvider)
            scenarios.publishV1 scenarios.publishInfo scenarios.publishingHandler) in
  call (NewIdempotentInterceptor [WithIdempRequireVolumeExists]) false
  = (Returned scenarios.publishedReply None, scenarios.publishedInterceptor, true,
     scenarios.publishedTrace)
  /\ exists res2,
       outcome_of (call scenarios.publishedInterceptor true) = Returned res2 None
       /\ publish_volume_info res2 = publish_volume_info scenarios.publishedReply
       /\ (count is_handler
             (scenarios.publishedTrace
              ++ trace_of (call scenarios.publishedInterceptor true)) <= 1)%nat.
Proof.
  intros call.
  assert (H1 : call (NewIdempotentInterceptor [WithIdempRequireVolumeExists]) false
               = (Returned scenarios.publishedReply None, scenarios.publishedInterceptor,
                  true, scenarios.publishedTrace))
    by (vm_compute; reflexivity).
  split; [exact H1|].
  apply (C8_controllerPublishVolume_idempotent (p := scenarios.publishingProvider)
           _ _ _ _ _ _ _ _ _ H1).
  - reflexivity.
  - intros _. exists {| CapacityBytes := 0; Id := "v1"; Attributes := None |}.
    vm_compute. reflexivity.
  - vm_compute. reflexivity.
Defined.

(* ===================================================================== *)
(** ** Properties of the mock service                                     *)
(* ===================================================================== *)

Section ServiceProperties.
Import service.
#[local] Open Scope Z_scope.
#[local] Open Scope list_scope.

Lemma FormatUint_nonempty n : FormatUint n ≠ "".
Proof.
  unfold FormatUint.
  assert (H : N.to_uint (Z.to_N n) ≠ Decimal.Nil).
  { destruct (Z.to_N n); cbn; [discriminate|apply DecimalPos.Unsigned.to_uint_nonnil]. }
  destruct (N.to_uint (Z.to_N n)); cbn; congruence.
Qed.

Lemma ParseUint_range s bits t : ParseUint s bits = Some t -> 0 <= t < 2 ^ bits.
Proof.
  unfold ParseUint. case_bool_decide; [done|].
  destruct (NilEmpty.uint_of_string s); [|done].
  destruct (Z.ltb_spec (Z.of_N (N.of_uint u)) (2 ^ bits)); [|done].
  intros [= <-]. lia.
Qed.

Lemma ParseUint_empty bits : ParseUint "" bits = None.
Proof. reflexivity. Qed.

Lemma uint32_small z : 0 <= z < 2 ^ 32 -> uint32 z = z.
Proof. intros ?. unfold uint32. by rewrite Z.mod_small. Qed.

(** The loop fills the [k] free slots with the volumes from index [j] on. *)
Lemma fillEntries_spec k : forall vols i j filled,
  length filled = i ->
  0 <= j ->
  j + Z.of_nat k <= Z.of_nat (length vols) ->
  Z.of_nat (length vols) < 2 ^ 32 ->
  fillEntries k vols i j (filled ++ replicate k None)
  = Some ((i + k)%nat, j + Z.of_nat k,
          filled ++ (entryOf <$> take k (drop (Z.to_nat j) vols))).
Proof.
  induction k as [|k IH]; intros vols i j filled Hlen Hj Hjk Hn.
  - cbn. rewrite Nat.add_0_r, Z.add_0_r, !app_nil_r. done.
  - cbn [fillEntries]. rewrite bool_decide_eq_true_2.
    2:{ rewrite length_app, length_replicate. lia. }
    destruct (vols !! Z.to_nat j) as [v|] eqn:Hv.
    2:{ apply lookup_ge_None in Hv. lia. }
    cbn [mbind option_bind].
    replace (<[i:=Some {| EntryVolumeInfo := Some v |}]> (filled ++ replicate (S k) None))
      with ((filled ++ [entryOf v]) ++ replicate k None).
    2:{ subst i. rewrite <- (Nat.add_0_r (length filled)), insert_app_r. cbn.
        by rewrite <- app_assoc. }
    unfold uint32. rewrite Z.mod_small by lia.
    rewrite IH; [|rewrite length_app; cbn; lia|lia|lia|lia].
    rewrite (drop_S _ _ _ Hv). cbn [take fmap list_fmap].
    replace (Z.to_nat (j + 1)) with (S (Z.to_nat j)) by lia.
    rewrite <- app_assoc. cbn.
    replace (i + S k)%nat with (S (i + k)) by lia.
    replace (j + Z.of_nat (S k)) with (j + 1 + Z.of_nat k) by lia. done.
Qed.

(** The answer of [ListVolumes] from token [t]: the [k] volumes from index
    [t] on, and the next token when volumes remain. *)
Lemma ListVolumes_from s maxEntries token t :
  let n := Z.of_nat (length (vols s)) in
  let k := if (maxEntries =? 0) || (n - t <? maxEntries) then n - t else maxEntries in
  n < 2 ^ 32 ->
  (token = "" /\ t = 0 \/ ParseUint token 32 = Some t) ->
  t <= n ->
  0 <= maxEntries ->
  ListVolumes s {| MaxEntries := maxEntries; StartingToken := token |}
  = Some (Some (mkResponse (Some (Response_Result_
       {| Entries := entryOf <$> take (Z.to_nat k) (drop (Z.to_nat t) (vols s));
          NextToken := if t + k <? n then FormatUint (t + k) else "" |}))), None).
Proof.
  intros n k Hn Htok Ht Hmax.
  assert (Hrange : 0 <= t < 2 ^ 32).
  { destruct Htok as [[_ ->]|Hp]; [lia|by apply ParseUint_range in Hp]. }
  assert (Hk : 0 <= k <= n - t).
  { subst k. destruct (Z.eqb_spec maxEntries 0); cbn; [lia|].
    destruct (Z.ltb_spec (n - t) maxEntries); lia. }
  unfold ListVolumes. cbn [MaxEntries StartingToken].
  fold n. rewrite (uint32_small n) by lia.
  assert (Hparsed :
    (if negb (bool_decide (token = ""))
     then match ParseUint token 32 with
          | None => inl (gocsi.ErrListVolumes 0
                           ("startingToken=" +:+ FormatUint 0
                            +:+ " !< uint32=" +:+ FormatUint MaxUint32))
          | Some i => inr (uint32 i)
          end
     else inr 0) = inr t).
  { destruct Htok as [[-> ->]|Hp]; [done|].
    case_bool_decide as He; cbn.
    - subst token. by rewrite ParseUint_empty in Hp.
    - by rewrite Hp, uint32_small. }
  rewrite Hparsed.
  destruct (Z.ltb_spec n t); [lia|].
  rewrite (uint32_small (n - t)) by lia. fold k.
  rewrite length_replicate.
  pose proof (fillEntries_spec (Z.to_nat k) (vols s) 0 t []) as Hfill.
  cbn [app] in Hfill. rewrite Hfill; [|done|lia|fold n; lia|fold n; lia].
  cbn [mbind option_bind]. rewrite Nat.add_0_l, Z2Nat.id by lia.
  rewrite (uint32_small k), (uint32_small (t + k)) by lia.
  done.
Qed.

(** C9.  A CreateVolume on the mock service succeeds with a new volume that
    is appended to the service's volume slice.  The volume's capacity is
    100 GiB when the request has no capacity range or both fields of the
    range are zero, RequiredBytes when that is positive and LimitBytes is
    zero, and LimitBytes whenever that is positive. *)
Theorem C9_CreateVolume_capacity s req :
  exists v,
    (CreateVolume s req).1
    = (Some (mkResponse (Some (Response_Result_ {| VolumeInfo_ := Some v |}))), None)
    /\ vols (CreateVolume s req).2 = vols s ++ [v]
    /\ (CapacityRange_ req = None -> CapacityBytes v = 100 * 2 ^ 30)
    /\ (forall cr, CapacityRange_ req = Some cr ->
          (RequiredBytes cr = 0 -> LimitBytes cr = 0 -> CapacityBytes v = 100 * 2 ^ 30)
          /\ (0 < RequiredBytes cr -> LimitBytes cr = 0 ->
              CapacityBytes v = RequiredBytes cr)
          /\ (0 < LimitBytes cr -> CapacityBytes v = LimitBytes cr)).
Proof.
  unfold CreateVolume, newVolume. cbn. eexists. split; [reflexivity|].
  split; [reflexivity|]. cbn. split.
  - intros ->. reflexivity.
  - intros cr ->. repeat split.
    + intros -> ->. reflexivity.
    + intros Hrb ->. cbn. by destruct (Z.ltb_spec 0 (RequiredBytes cr)); [|lia].
    + intros Hlb. by destruct (Z.ltb_spec 0 (LimitBytes cr)); [|lia].
Qed.

(** The number of volumes is converted to a [uint32]: with 2^32 volumes
    the service lists none and gives no next token. *)
Lemma ListVolumes_length_wraps v :
  let s := mkService "mock" (replicate (Z.to_nat (2 ^ 32)) v) 0 in
  Z.of_nat (length (vols s)) = 2 ^ 32
  /\ ListVolumes s {| MaxEntries := 0; StartingToken := "" |}
     = Some (Some (mkResponse (Some (Response_Result_
                {| Entries := []; NextToken := "" |}))), None).
Proof.
  intros s. subst s. cbn [vols].
  assert (Hlen : Z.of_nat (length (replicate (Z.to_nat (2 ^ 32)) v)) = 2 ^ 32).
  { rewrite length_replicate. apply Z2Nat.id. by apply Z.pow_nonneg. }
  split; [exact Hlen|].
  unfold ListVolumes. cbn [vols MaxEntries StartingToken]. rewrite Hlen.
  change (uint32 (2 ^ 32)) with 0.
  reflexivity.
Qed.

(** C10, as the code has it.  On a service that holds fewer than 2^32
    volumes, with [n] the number of volumes, MaxEntries an unsigned number
    and [t] the starting token, which is 0 for the empty StartingToken and
    the parsed value otherwise: if
    [t <= n], the reply holds exactly min(MaxEntries, n - t) entries when
    MaxEntries is positive and n - t entries when it is zero; the entries are
    the volumes at indices t, t+1, ... in order; and NextToken is non-empty
    exactly when volumes remain after them.  If [t > n], or StartingToken is
    not empty and does not parse as a uint32, the reply carries an embedded
    error and the error returned is nil. *)
Theorem C10_ListVolumes s req :
  let n := Z.of_nat (length (vols s)) in
  let token t :=
    StartingToken req = "" /\ t = 0 \/ ParseUint (StartingToken req) 32 = Some t in
  n < 2 ^ 32 ->
  0 <= MaxEntries req ->
  (forall t, token t -> t <= n ->
     exists entries nextToken k,
       ListVolumes s req
       = Some (Some (mkResponse (Some (Response_Result_
                 {| Entries := entries; NextToken := nextToken |}))), None)
       /\ (0 < MaxEntries req -> k = Z.min (MaxEntries req) (n - t))
       /\ (MaxEntries req = 0 -> k = n - t)
       /\ Z.of_nat (length entries) = k
       /\ (forall i, (i < length entries)%nat ->
             entries !! i = entryOf <$> (vols s !! (Z.to_nat t + i)%nat))
       /\ (nextToken <> "" <-> t + k < n))
  /\ (forall t, token t -> n < t ->
        exists reply, ListVolumes s req = Some (reply, None) /\ GetError reply <> None)
  /\ (StartingToken req <> "" -> ParseUint (StartingToken req) 32 = None ->
        exists reply, ListVolumes s req = Some (reply, None) /\ GetError reply <> None).
Proof.
  intros n token Hn Hmax. destruct req as [maxEntries tok]. cbn in *.
  split; [|split].
  - intros t Htok Ht.
    assert (Hrange : 0 <= t < 2 ^ 32).
    { destruct Htok as [[_ ->]|Hp]; [lia|by apply ParseUint_range in Hp]. }
    rewrite (ListVolumes_from s maxEntries tok t Hn Htok Ht Hmax). fold n.
    set (k := if (maxEntries =? 0) || (n - t <? maxEntries) then n - t else maxEntries).
    assert (Hk : 0 <= k <= n - t
                 /\ (0 < maxEntries -> k = Z.min maxEntries (n - t))
                 /\ (maxEntries = 0 -> k = n - t)).
    { subst k. destruct (Z.eqb_spec maxEntries 0); cbn; [lia|].
      destruct (Z.ltb_spec (n - t) maxEntries); lia. }
    destruct Hk as (Hk & Hpos & Hzero).
    assert (Hlen : length (entryOf <$> take (Z.to_nat k) (drop (Z.to_nat t) (vols s)))
                   = Z.to_nat k).
    { rewrite length_fmap, length_take, length_drop. lia. }
    eexists _, _, k. split; [reflexivity|].
    split; [done|]. split; [done|]. split; [lia|]. split.
    + intros i Hi. rewrite Hlen in Hi.
      rewrite list_lookup_fmap, lookup_take_lt, lookup_drop by done. done.
    + destruct (Z.ltb_spec (t + k) n).
      * split; [done|]. intros _. apply FormatUint_nonempty.
      * split; [done|lia].
  - intros t Htok Ht.
    assert (Hrange : 0 <= t < 2 ^ 32).
    { destruct Htok as [[_ ->]|Hp]; [lia|by apply ParseUint_range in Hp]. }
    unfold ListVolumes. cbn [MaxEntries StartingToken]. fold n.
    rewrite (uint32_small n) by lia.
    destruct Htok as [[-> ->]|Hp]; [lia|].
    case_bool_decide as He; [subst tok; by rewrite ParseUint_empty in Hp|].
    cbn. rewrite Hp, uint32_small by done.
    destruct (Z.ltb_spec n t); [|lia]. eexists. split; [reflexivity|done].
  - intros Hne Hp. unfold ListVolumes. cbn [MaxEntries StartingToken].
    rewrite bool_decide_eq_false_2 by done. cbn. rewrite Hp.
    eexists. split; [reflexivity|done].
Qed.

End ServiceProperties.

(** C9 at the request of the README's log: a required and a limit size on
    the service with three volumes. *)
Lemma C9_CreateVolume_capacity_witness :
  let cr := {| RequiredBytes := 10740000000; LimitBytes := 107400000000 |} in
  let req := {| Name := "Test Volume"; CapacityRange_ := Some cr |} in
  exists v,
    (service.CreateVolume scenarios.mockService req).1
    = (Some (mkResponse (Some (Response_Result_ {| VolumeInfo_ := Some v |}))), None)
    /\ service.vols (service.CreateVolume scenarios.mockService req).2
       = (service.vols scenarios.mockService ++ [v])%list
    /\ Id v = "4"
    /\ CapacityBytes v = 107400000000%Z.
Proof.
  intros cr req.
  destruct (C9_CreateVolume_capacity scenarios.mockService req)
    as (v & Hres & Hvols & _ & Hcr).
  exists v. split; [exact Hres|]. split; [exact Hvols|]. split.
  - apply (f_equal fst) in Hres. vm_compute in Hres. by injection Hres as <-.
  - apply (proj2 (proj2 (Hcr cr eq_refl))). reflexivity.
Defined.

(** C10 as claimed fails.  The empty StartingToken does not parse as a
    uint32, and yet the reply to it carries no embedded error: it lists the
    volumes from the first one. *)
Lemma C10_empty_token_is_no_error :
  let req := {| MaxEntries := 0; StartingToken := "" |} in
  service.ParseUint (StartingToken req) 32 = None
  /\ exists reply,
       service.ListVolumes scenarios.mockService req = Some (reply, None)
       /\ GetError reply = None
       /\ (Entries <$> GetResult reply)
          = Some (service.entryOf <$> service.vols scenarios.mockService).
Proof.
  split; [reflexivity|]. eexists. split; [vm_compute; reflexivity|].
  split; vm_compute; reflexivity.
Qed.

(** C10 as amended, at a request for one entry from token ["1"] on the
    service with three volumes. *)
Lemma C10_ListVolumes_witness :
  let req := {| MaxEntries := 1; StartingToken := "1" |} in
  let n := Z.of_nat (length (service.vols scenarios.mockService)) in
  ((n < 2 ^ 32)%Z /\ (0 <= MaxEntries req)%Z
   /\ service.ParseUint (StartingToken req) 32 = Some 1%Z /\ (1 <= n)%Z)
  /\ exists entries nextToken,
       service.ListVolumes scenarios.mockService req
       = Some (Some (mkResponse (Some (Response_Result_
                 {| Entries := entries; NextToken := nextToken |}))), None)
       /\ Z.of_nat (length entries) = 1%Z
       /\ entries !! 0%nat = Some (service.entryOf (scenarios.mockVolume "2"))
       /\ nextToken <> "".
Proof.
  intros req n.
  assert (Hn : (n < 2 ^ 32)%Z) by (vm_compute; reflexivity).
  assert (Hmax : (0 <= MaxEntries req)%Z) by (vm_compute; discriminate).
  assert (Htok : service.ParseUint (StartingToken req) 32 = Some 1%Z)
    by (vm_compute; reflexivity).
  assert (Ht : (1 <= n)%Z) by (vm_compute; discriminate).
  split; [done|].
  destruct (proj1 (C10_ListVolumes scenarios.mockService req Hn Hmax) 1%Z
              (or_intror Htok) Ht)
    as (entries & nextToken & k & Hreply & Hpos & _ & Hlen & Hentries & Hnext).
  assert (Hk : k = 1%Z) by (rewrite Hpos; reflexivity).
  exists entries, nextToken. split; [exact Hreply|].
  split; [by rewrite Hlen|]. split.
  - rewrite Hentries by lia. reflexivity.
  - apply Hnext. rewrite Hk. reflexivity.
Defined.

(* ===================================================================== *)
(** ** What every call of the interceptor leaves behind                   *)
(* ===================================================================== *)

Section ExitShape.

Lemma Unlock_released l i : Unlock l i = released l (methodInErr (lockOf l i)) i.
Proof. reflexivity. Qed.

Lemma hooked_released l m b S i :
  exists S', hooked l m b (released l S i) = released l S' i /\ marks_step m S S'.
Proof.
  unfold hooked, markInErr, unmarkInErr, released, inErr.
  rewrite !lockOf_setLock_eq. cbn. destruct b.
  - eexists. rewrite setLock_setLock. split; [done|]. right; by left.
  - case_bool_decide.
    + eexists. rewrite setLock_setLock. split; [done|]. right; by right.
    + eexists. split; [done|]. by left.
Qed.

Lemma createVolume_nameHook_cases nl info res err x i' :
  createVolume_nameHook nl info res err x = Some i' ->
  i' = x \/ exists b, i' = hooked nl (FullMethod info) b x.
Proof.
  unfold createVolume_nameHook. intros H.
  assert (Hu : (if inErr nl (FullMethod info) x
                then Some (unmarkInErr nl (FullMethod info) x) else Some x)
               = Some (hooked nl (FullMethod info) false x)).
  { unfold hooked. by destruct (inErr nl (FullMethod info) x). }
  rewrite Hu in H. clear Hu.
  remember (hooked nl (FullMethod info) false x) as hf eqn:Hhf.
  destruct (negb (isNil err));
    destruct (CreateVolumeResponse_GetError res) as [[e|]|]; cbn in H; try done;
    repeat case_match; simplify_eq;
    first [by left | right; by exists true | right; by exists false].
Qed.

Lemma lockOf_released_ne l l' S i : l ≠ l' -> lockOf l' (released l S i) = lockOf l' i.
Proof. apply lockOf_setLock_ne. Qed.

Lemma lockOf_released l S i : lockOf l (released l S i) = mkVolLockInfo false S.
Proof. apply lockOf_setLock_eq. Qed.

Lemma lockOf_released_cases l l' S i :
  lockOf l' (released l S i)
  = if decide (l = l') then mkVolLockInfo false S else lockOf l' i.
Proof.
  case_decide as H; [subst; apply lockOf_released|by apply lockOf_released_ne].
Qed.

Lemma opts_released l S i : opts (released l S i) = opts i.
Proof. apply opts_setLock. Qed.

Lemma volIDLocks_released l S i :
  dom (volIDLocks i) ⊆ dom (volIDLocks (released l S i)).
Proof.
  destruct l; cbn; [|done]. rewrite dom_insert_L. apply union_subseteq_r.
Qed.

Lemma volNameLocks_released l S i :
  dom (volNameLocks i) ⊆ dom (volNameLocks (released l S i)).
Proof.
  destruct l; cbn; [done|]. rewrite dom_insert_L. apply union_subseteq_r.
Qed.

Lemma released_name_acquire n id S S' i :
  released (nameLockPtr n) S (released (idLockPtr id) S' (acquire (nameLockPtr n) i))
  = released (nameLockPtr n) S (released (idLockPtr id) S' i).
Proof.
  unfold released, acquire. cbn. by rewrite insert_insert_eq.
Qed.

Lemma marks_step_other m old S m' :
  marks_step m old S -> m' ≠ m -> (m' ∈ S <-> m' ∈ old).
Proof.
  intros [-> | [-> | ->]] Hne; [done| |].
  - rewrite elem_of_union, elem_of_singleton. naive_solver.
  - rewrite elem_of_difference, elem_of_singleton. naive_solver.
Qed.

(** The deferred calls of a CreateVolume that holds the name lock only. *)
Lemma runDefers_createVolume_name nl info res err i :
  exists b S,
    runDefers [deferUnlock nl; createVolume_nameHook nl info] res err (acquire nl i)
    = (b, released nl S i)
    /\ marks_step (FullMethod info) (methodInErr (lockOf nl i)) S.
Proof.
  cbn [runDefers deferUnlock]. rewrite Unlock_acquire, Unlock_released.
  destruct (createVolume_nameHook nl info res err _) as [i'|] eqn:Hh.
  - apply createVolume_nameHook_cases in Hh as [->|[b ->]].
    + eexists _, _. split; [reflexivity|by left].
    + destruct (hooked_released nl (FullMethod info) b (methodInErr (lockOf nl i)) i)
        as (S' & -> & HS). eexists _, _. split; [reflexivity|done].
  - eexists _, _. split; [reflexivity|by left].
Qed.

(** The deferred calls of a CreateVolume that holds the name lock and the
    lock of the resolved volume ID. *)
Lemma runDefers_createVolume_id_name id n info res err i :
  exists b Si Sn,
    runDefers [deferUnlock (idLockPtr id);
               exitHook CreateVolumeResponse_GetError (idLockPtr id) info;
               deferUnlock (nameLockPtr n); createVolume_nameHook (nameLockPtr n) info]
      res err (acquire (idLockPtr id) (acquire (nameLockPtr n) i))
    = (b, released (nameLockPtr n) Sn (released (idLockPtr id) Si i))
    /\ marks_step (FullMethod info) (methodInErr (lockOf (idLockPtr id) i)) Si
    /\ marks_step (FullMethod info) (methodInErr (lockOf (nameLockPtr n) i)) Sn.
Proof.
  set (idl := idLockPtr id). set (nl := nameLockPtr n).
  assert (Hne : idl ≠ nl) by done.
  assert (Hrest : forall Si,
    exists b Sn,
      runDefers [deferUnlock nl; createVolume_nameHook nl info] res err
        (released idl Si (acquire nl i))
      = (b, released nl Sn (released idl Si i))
      /\ marks_step (FullMethod info) (methodInErr (lockOf nl i)) Sn).
  { intros Si. cbn [runDefers deferUnlock]. rewrite Unlock_released.
    rewrite lockOf_released_ne, lockOf_acquire by done. cbn [methodInErr].
    subst idl nl. rewrite released_name_acquire.
    destruct (createVolume_nameHook _ info res err _) as [i'|] eqn:Hh.
    - apply createVolume_nameHook_cases in Hh as [->|[b ->]].
      + eexists _, _. split; [reflexivity|by left].
      + edestruct hooked_released as (S' & -> & HS).
        eexists _, _. split; [reflexivity|done].
    - eexists _, _. split; [reflexivity|by left]. }
  cbn [runDefers deferUnlock]. rewrite Unlock_acquire, Unlock_released.
  rewrite lockOf_acquire_ne by done.
  destruct (exitHook CreateVolumeResponse_GetError idl info res err _) as [i'|] eqn:Hh.
  - rewrite exitHook_eq in Hh.
    destruct (hookFailed _ res err) as [b|]; [|done]. cbn [mbind option_bind] in Hh.
    apply (inj Some) in Hh.
    destruct (hooked_released idl (FullMethod info) b (methodInErr (lockOf idl i))
                (acquire nl i)) as (S' & HS' & Hstep).
    rewrite HS' in Hh. subst i'.
    destruct (Hrest S') as (b1 & Sn & Heq & Hn).
    cbn [runDefers deferUnlock] in Heq. rewrite Heq.
    eexists _, S', Sn. split; [reflexivity|done].
  - destruct (Hrest (methodInErr (lockOf idl i))) as (b1 & Sn & Heq & Hn).
    cbn [runDefers deferUnlock] in Heq. rewrite Heq.
    eexists _, _, Sn. split; [reflexivity|]. split; [by left|done].
Qed.

Lemma id_keyed_exit_held l m i i' l' :
  id_keyed_exit l m i i' -> held (lockOf l' i') = held (lockOf l' i).
Proof.
  intros [[_ ->]|(Hf & S & _ & ->)]; [done|].
  rewrite lockOf_released_cases; case_decide; subst; cbn [held]; congruence.
Qed.

Lemma exit_shape_held req m i i' l :
  exit_shape req m i i' -> held (lockOf l i') = held (lockOf l i).
Proof.
  destruct req; cbn [exit_shape];
    try apply id_keyed_exit_held; try (by intros ->).
  intros [[_ ->]|(Hn & Sn & _ & [->|(id & Si & Hid & _ & ->)])]; [done| |];
    rewrite ?lockOf_released_cases; repeat case_decide; subst; cbn [held]; congruence.
Qed.

Lemma id_keyed_exit_marks l m i i' l' m' :
  id_keyed_exit l m i i' -> m' ≠ m ->
  (m' ∈ methodInErr (lockOf l' i') <-> m' ∈ methodInErr (lockOf l' i)).
Proof.
  intros [[_ ->]|(Hf & S & HS & ->)] Hne; [done|].
  rewrite lockOf_released_cases; case_decide; subst; cbn [methodInErr];
    eauto using marks_step_other.
Qed.

Lemma exit_shape_marks req m i i' l m' :
  exit_shape req m i i' -> m' ≠ m ->
  (m' ∈ methodInErr (lockOf l i') <-> m' ∈ methodInErr (lockOf l i)).
Proof.
  intros Hshape Hne.
  destruct req; cbn [exit_shape] in Hshape;
    try (by eapply id_keyed_exit_marks); try (by subst).
  destruct Hshape as [[_ ->]|(Hn & Sn & HSn & [->|(id & Si & Hid & HSi & ->)])]; [done| |];
    rewrite ?lockOf_released_cases; repeat case_decide; subst; cbn [methodInErr];
    eauto using marks_step_other.
Qed.

Lemma exit_shape_tables req m i i' :
  exit_shape req m i i' ->
  dom (volIDLocks i) ⊆ dom (volIDLocks i')
  /\ dom (volNameLocks i) ⊆ dom (volNameLocks i')
  /\ opts i' = opts i.
Proof.
  assert (Hr : forall l S i0,
    dom (volIDLocks i0) ⊆ dom (volIDLocks (released l S i0))
    /\ dom (volNameLocks i0) ⊆ dom (volNameLocks (released l S i0))
    /\ opts (released l S i0) = opts i0).
  { intros. split; [apply volIDLocks_released|].
    split; [apply volNameLocks_released|apply opts_released]. }
  assert (Hid : forall l, id_keyed_exit l m i i' ->
    dom (volIDLocks i) ⊆ dom (volIDLocks i')
    /\ dom (volNameLocks i) ⊆ dom (volNameLocks i') /\ opts i' = opts i).
  { intros l [[_ ->]|(Hf & S & _ & ->)]; [done|apply Hr]. }
  destruct req; cbn [exit_shape]; eauto; [|by intros ->].
  intros [[_ ->]|(Hn & Sn & _ & [->|(id & Si & _ & _ & ->)])]; [done|apply Hr|].
  destruct (Hr (idLockPtr id) Si i) as (H1 & H2 & H3).
  destruct (Hr (nameLockPtr (Name r)) Sn (released (idLockPtr id) Si i)) as (H4 & H5 & H6).
  split; [by etrans|]. split; [by etrans|congruence].
Qed.

Lemma exit_shape_frame req m i i' l :
  isCreateVolume req = false -> lockKey req ≠ Some l -> exit_shape req m i i' ->
  lockOf l i' = lockOf l i.
Proof.
  intros Hc Hk.
  destruct req; cbn [exit_shape]; try discriminate Hc; try (by intros ->);
    (intros [[_ ->]|(Hf & S & _ & ->)]; [done|]);
    rewrite lockOf_released_cases; case_decide; subst; cbn [lockKey] in *; congruence.
Qed.


Lemma hookFailed_DeleteVolume res err b :
  hookFailed DeleteVolumeResponse_GetError res err = Some b -> callFailed res err = b.
Proof. unfold hookFailed, callFailed. destruct err, res; cbn; congruence. Qed.

Lemma hookFailed_ControllerPublishVolume res err b :
  hookFailed ControllerPublishVolumeResponse_GetError res err = Some b ->
  callFailed res err = b.
Proof. unfold hookFailed, callFailed. destruct err, res; cbn; congruence. Qed.

Lemma hookFailed_ControllerUnpublishVolume res err b :
  hookFailed ControllerUnpublishVolumeResponse_GetError res err = Some b ->
  callFailed res err = b.
Proof. unfold hookFailed, callFailed. destruct err, res; cbn; congruence. Qed.

Lemma hookFailed_NodePublishVolume res err b :
  hookFailed NodePublishVolumeResponse_GetError res err = Some b -> callFailed res err = b.
Proof. unfold hookFailed, callFailed. destruct err, res; cbn; congruence. Qed.

Lemma hookFailed_NodeUnpublishVolume res err b :
  hookFailed NodeUnpublishVolumeResponse_GetError res err = Some b -> callFailed res err = b.
Proof. unfold hookFailed, callFailed. destruct err, res; cbn; congruence. Qed.

End ExitShape.

Create HintDb hooks.
#[global] Hint Resolve hookFailed_DeleteVolume hookFailed_ControllerPublishVolume
  hookFailed_ControllerUnpublishVolume hookFailed_NodePublishVolume
  hookFailed_NodeUnpublishVolume : hooks.

(** Every path of an id-keyed procedure ends in the exit shape. *)
Ltac id_keyed_exit_tac :=
  mall;
  first
  [ left; split; [done|reflexivity]
  | right; split; [done|]; rewrite ?Unlock_released;
    first
    [ edestruct hooked_released as (?S' & -> & ?HS); eexists; split; [eassumption|reflexivity]
    | eexists; split; [|reflexivity]; by left ] ].

(** Replace the deferred calls of a CreateVolume by what they leave. *)
Ltac resolve_defers :=
  repeat match goal with
  | |- context [runDefers [deferUnlock ?l; createVolume_nameHook ?l ?info] ?res ?err
                  (acquire ?l ?i)] =>
      destruct (runDefers_createVolume_name l info res err i) as (? & ? & -> & ?)
  | |- context [runDefers [deferUnlock (idLockPtr ?id); _; _; _] ?res ?err
                  (acquire _ (acquire (nameLockPtr ?n) ?i))] =>
      let info := match goal with |- context [createVolume_nameHook _ ?info] => info end in
      destruct (runDefers_createVolume_id_name id n info res err i)
        as (? & ? & ? & -> & ? & ?)
  end;
  mred.

Ltac createVolume_exit_tac :=
  mall; resolve_defers;
  first
  [ left; split; [done|reflexivity]
  | right; split; [done|]; eexists; split; [eassumption|];
    first [ left; reflexivity
          | right; eexists _, _; split; [eassumption|]; split; [eassumption|reflexivity] ] ].

Ltac decision_setup i Hpre Hq :=
  unfold afterPrecheck, precheckPasses in *;
  destruct (requireVolume (opts i)) eqn:?;
  [ destruct Hpre as [? Hpre]; [done|];
    match type of Hpre with
    | (GetVolumeInfo ?a ?b ?w).1 = _ =>
        destruct (GetVolumeInfo a b w) as [[? ?] ?] eqn:?; cbn in Hpre, Hq;
        injection Hpre as -> ->
    end
  | clear Hpre ].

Ltac decision_finish :=
  mrun;
  try match goal with
      | h : UnaryHandler |- context [?h' ?r ?w] =>
          constr_eq h h'; destruct (h r w) as [[? ?] ?]
      end;
  mrun;
  try match goal with
      | |- context [hookFailed ?g ?r ?e] => destruct (hookFailed g r e)
      end;
  mred; try done; try (split; reflexivity).

Section InterceptorInvariants.
Context {W : Type} {p : IdempotencyProvider W}.
Implicit Types (i : idempotencyInterceptor) (w : W) (info : UnaryServerInfo)
  (handler : @UnaryHandler W).

Lemma handle_exit_shape req info handler i w :
  exit_shape req (FullMethod info) i (icpt_of (exec (handle req info handler) i w)).
Proof.
  destruct req; cbn [exit_shape].
  - createVolume_exit_tac.
  - id_keyed_exit_tac.
  - id_keyed_exit_tac.
  - id_keyed_exit_tac.
  - id_keyed_exit_tac.
  - id_keyed_exit_tac.
  - mall. reflexivity.
Qed.

(** The record of the lock of an id-keyed call that got the lock and
    returned. *)
Lemma exit_marks_of_call req info handler i w l res err :
  let r := exec (handle req info handler) i w in
  isCreateVolume req = false ->
  lockKey req = Some l ->
  held (lockOf l i) = false ->
  outcome_of r = Returned res err ->
  lockOf l (icpt_of r)
  = mkVolLockInfo false
      (if callFailed res err then {[FullMethod info]} ∪ methodInErr (lockOf l i)
       else methodInErr (lockOf l i) ∖ {[FullMethod info]}).
Proof.
  intros r Hc Hk Hfree; subst r.
  destruct req; try discriminate Hc; cbn in Hk; simplify_eq; mall.
  all: intros Hout; try discriminate Hout; apply Returned_inj in Hout as [<- <-].
  all: match goal with
       | |- context [hooked _ _ ?b _] =>
           replace (callFailed _ _) with b
             by (first [reflexivity | symmetry; eauto with hooks])
       end.
  all: by rewrite lockOf_hooked, lockOf_Unlock.
Qed.

(** The calls of a request whose method is marked in error on its lock. *)
Lemma bypass_of_call req info handler i w l :
  lockKey req = Some l ->
  held (lockOf l i) = false ->
  inErr l (FullMethod info) i = true ->
  trace_of (exec (handle req info handler) i w)
  = [EvHandler req (handler req w).1.1 (handler req w).1.2].
Proof.
  intros Hk Hfree Hmarked.
  destruct req; cbn in Hk; simplify_eq; mrun;
    destruct (handler _ w) as [[res err] w']; mred;
    by destruct (runDefers _ _ _ _).
Qed.

(** X1.  No call of the interceptor, for any request, provider, handler and
    starting state, and whether it returns or panics, changes which mutexes
    are held: every lock it takes it releases, and it releases no lock that
    another request holds. *)
Theorem handle_keeps_mutexes req info handler i w l :
  held (lockOf l (icpt_of (exec (handle req info handler) i w))) = held (lockOf l i).
Proof. eapply exit_shape_held, handle_exit_shape. Qed.

(** X2.  A call for method [FullMethod info] changes the method-in-error
    sets, of every ID lock and every name lock, for that method only. *)
Theorem handle_marks_only_its_method req info handler i w l m :
  m ≠ FullMethod info ->
  (m ∈ methodInErr (lockOf l (icpt_of (exec (handle req info handler) i w)))
   <-> m ∈ methodInErr (lockOf l i)).
Proof. intros. eapply exit_shape_marks; [apply handle_exit_shape|done]. Qed.

(** X3.  Lock records are never removed from the two tables, and the
    options of the interceptor are never changed by a call. *)
Theorem handle_tables_only_grow req info handler i w :
  let i' := icpt_of (exec (handle req info handler) i w) in
  dom (volIDLocks i) ⊆ dom (volIDLocks i')
  /\ dom (volNameLocks i) ⊆ dom (volNameLocks i')
  /\ opts i' = opts i.
Proof. eapply exit_shape_tables, handle_exit_shape. Qed.

(** X4.  A request other than CreateVolume leaves the record of every lock
    but the one of its own volume ID as it was. *)
Theorem handle_frame req info handler i w l :
  isCreateVolume req = false -> lockKey req ≠ Some l ->
  lockOf l (icpt_of (exec (handle req info handler) i w)) = lockOf l i.
Proof. intros. eapply exit_shape_frame; [done..|apply handle_exit_shape]. Qed.


(** X6.  A call makes at most three calls to its collaborators; it invokes
    the downstream handler at most once, as its last call and with the
    request it was given. *)
Theorem handle_calls req info handler i w :
  let t := trace_of (exec (handle req info handler) i w) in
  (length t <= 3)%nat
  /\ (count is_handler t <= 1)%nat
  /\ forall k req' res err,
       t !! k = Some (EvHandler req' res err) -> S k = length t /\ req' = req.
Proof.
  intros t; subst t. destruct req; mall; resolve_defers.
  all: split; [vm_compute; lia|]; split; [vm_compute; lia|].
  all: intros [|[|[|k]]] req' res err Hk; cbn in Hk; by simplify_eq.
Qed.

(** X7.  When a call that invoked the downstream handler returns, it
    returns the handler's reply and error unchanged. *)
Theorem handle_returns_handler_result req info handler i w res err req' res' err' :
  let r := exec (handle req info handler) i w in
  outcome_of r = Returned res err ->
  EvHandler req' res' err' ∈ trace_of r ->
  res' = res /\ err' = err.
Proof.
  intros r; subst r. destruct req; mall; resolve_defers.
  all: intros Hout Hin; not_in_trace Hin.
  all: try (injection Hin as -> -> ->).
  all: repeat match goal with
         | H : context [if ?b then Panicked else _] |- _ => destruct b
         end; try discriminate Hout.
  all: by apply Returned_inj in Hout.
Qed.

(** X8.  For the five id-keyed requests: when a query of the provider
    answers with an error, the call returns a nil reply with that error, the
    downstream handler is not invoked, and the lock is released with the
    method marked in error. *)
Theorem handle_provider_error req info handler i w ev e l :
  let r := exec (handle req info handler) i w in
  isCreateVolume req = false ->
  lockKey req = Some l ->
  ev ∈ trace_of r ->
  event_error ev = Some e ->
  outcome_of r = Returned nil_iface (Some e)
  /\ count is_handler (trace_of r) = 0%nat
  /\ lockOf l (icpt_of r)
     = mkVolLockInfo false ({[FullMethod info]} ∪ methodInErr (lockOf l i)).
Proof.
  intros r Hc Hk; subst r.
  destruct req; try discriminate Hc; cbn in Hk; simplify_eq; mall.
  all: intros Hin Herr; not_in_trace Hin; subst; cbn in Herr; simplify_eq.
  all: split; [reflexivity|]; split; [reflexivity|].
  all: by rewrite lockOf_hooked, lockOf_Unlock.
Qed.

(** X9.  Without the require-volume option, the publish and unpublish
    procedures of the controller and of the node never look the volume up. *)
Theorem handle_no_precheck req info handler i w :
  requireVolume (opts i) = false ->
  match req with
  | CreateVolumeRequest_ptr _ | DeleteVolumeRequest_ptr _ => True
  | _ => count is_GetVolumeInfo (trace_of (exec (handle req info handler) i w)) = 0%nat
  end.
Proof.
  intros Hrv. destruct req; try done; mall; reflexivity.
Qed.

(** X10.  A CreateVolume changes the record of no ID lock but that of the
    volume its first lookup, by name, resolved the name to. *)
Theorem createVolume_id_table req info handler i w id :
  let r := exec (createVolume req info handler) i w in
  (forall v, head (trace_of r) = Some (EvGetVolumeInfo "" (Name req) (Some v) None) ->
             Id v ≠ id) ->
  lockOf (idLockPtr id) (icpt_of r) = lockOf (idLockPtr id) i.
Proof.
  intros r; subst r. mall; resolve_defers; intros Hhead;
    rewrite ?lockOf_released_ne by done; try reflexivity.
  all: rewrite lockOf_released_ne; [reflexivity|].
  all: intros [= ?]; by eapply Hhead.
Qed.

(** X11.  For the five id-keyed requests: a call that got the lock and
    returns leaves the lock released, with the method marked in error when
    the call returns an error or a reply with an embedded error, and
    unmarked otherwise; the other marks of the record are kept. *)
Theorem handle_exit_marks req info handler i w l res err :
  let r := exec (handle req info handler) i w in
  isCreateVolume req = false ->
  lockKey req = Some l ->
  held (lockOf l i) = false ->
  outcome_of r = Returned res err ->
  lockOf l (icpt_of r)
  = mkVolLockInfo false
      (if callFailed res err then {[FullMethod info]} ∪ methodInErr (lockOf l i)
       else methodInErr (lockOf l i) ∖ {[FullMethod info]}).
Proof. exact (exit_marks_of_call req info handler i w l res err). Qed.

(** X12.  For each of the six requests: with the lock free and the method
    marked in error on it, the downstream handler is invoked on the request
    and the provider is not queried at all. *)
Theorem handle_bypass req info handler i w l :
  lockKey req = Some l ->
  held (lockOf l i) = false ->
  inErr l (FullMethod info) i = true ->
  trace_of (exec (handle req info handler) i w)
  = [EvHandler req (handler req w).1.1 (handler req w).1.2].
Proof. exact (bypass_of_call req info handler i w l). Qed.

(** X13.  For the five id-keyed requests: after a call that got the lock
    and failed, the next call of the same method for the same volume goes to
    the downstream handler without any query of the provider, whatever the
    provider would answer. *)
Theorem failure_then_bypass req info handler handler' i w l res err :
  let r1 := exec (handle req info handler) i w in
  let r2 := exec (handle req info handler') (icpt_of r1) (world_of r1) in
  isCreateVolume req = false ->
  lockKey req = Some l ->
  held (lockOf l i) = false ->
  outcome_of r1 = Returned res err ->
  callFailed res err = true ->
  trace_of r2
  = [EvHandler req (handler' req (world_of r1)).1.1 (handler' req (world_of r1)).1.2].
Proof.
  intros r1 r2 Hc Hk Hfree Hout Hfailed. subst r2.
  pose proof (exit_marks_of_call req info handler i w l res err Hc Hk Hfree Hout) as Hl.
  fold r1 in Hl. rewrite Hfailed in Hl.
  apply (bypass_of_call _ _ _ _ _ l Hk).
  - by rewrite Hl.
  - apply inErr_true. rewrite Hl. cbn [methodInErr].
    apply elem_of_union_l, elem_of_singleton. reflexivity.
Qed.

(** X14.  ControllerPublishVolume and ControllerUnpublishVolume, with the
    lock taken, the method not in error and the existence precheck (if any)
    passed, ask the provider whether the volume is published to the node.
    A publish of a published volume returns the provider's publish info
    without the handler, a publish of an unpublished one invokes the
    handler; an unpublish of an unpublished volume returns success without
    the handler, an unpublish of a published one invokes the handler. *)
Theorem controller_publish_decisions i w info handler pub w1 :
  (forall req,
     let id := ControllerPublishVolumeId req in
     let r := exec (controllerPublishVolume req info handler) i w in
     held (lockOf (idLockPtr id) i) = false ->
     inErr (idLockPtr id) (FullMethod info) i = false ->
     precheckPasses i id w ->
     IsControllerPublished id (ControllerPublishNodeId req) (afterPrecheck i id w)
     = ((pub, None), w1) ->
     match pub with
     | Some m =>
         outcome_of r
         = Returned (ControllerPublishVolumeResponse_ptr (Some (mkResponse (Some
             (Response_Result_ {| PublishVolumeInfo := Some m |}))))) None
         /\ count is_handler (trace_of r) = 0%nat
     | None => count is_handler (trace_of r) = 1%nat
     end)
  /\ (forall req,
     let id := ControllerUnpublishVolumeId req in
     let r := exec (controllerUnpublishVolume req info handler) i w in
     held (lockOf (idLockPtr id) i) = false ->
     inErr (idLockPtr id) (FullMethod info) i = false ->
     precheckPasses i id w ->
     IsControllerPublished id (ControllerUnpublishNodeId req) (afterPrecheck i id w)
     = ((pub, None), w1) ->
     match pub with
     | None =>
         outcome_of r
         = Returned (ControllerUnpublishVolumeResponse_ptr (Some (mkResponse (Some
             (Response_Result_ Build_ControllerUnpublishVolumeResponse_Result))))) None
         /\ count is_handler (trace_of r) = 0%nat
     | Some _ => count is_handler (trace_of r) = 1%nat
     end).
Proof.
  split; intros req id r Hfree Hclean Hpre Hq; subst id r;
    decision_setup i Hpre Hq; destruct pub; decision_finish.
Qed.

(** X15.  NodePublishVolume and NodeUnpublishVolume, with the lock taken,
    the method not in error and the existence precheck (if any) passed, ask
    the provider whether the volume is published at the target path; the
    unpublish asks with a nil publish info.  A publish of a published volume
    and an unpublish of an unpublished one return success without the
    handler; otherwise the handler is invoked. *)
Theorem node_publish_decisions i w info handler ok w1 :
  (forall req,
     let id := NodePublishVolumeId req in
     let r := exec (nodePublishVolume req info handler) i w in
     held (lockOf (idLockPtr id) i) = false ->
     inErr (idLockPtr id) (FullMethod info) i = false ->
     precheckPasses i id w ->
     IsNodePublished id (NodePublishVolumeInfo req) (NodePublishTargetPath req)
       (afterPrecheck i id w) = ((ok, None), w1) ->
     if ok : bool then
       outcome_of r
       = Returned (NodePublishVolumeResponse_ptr (Some (mkResponse (Some
           (Response_Result_ Build_NodePublishVolumeResponse_Result))))) None
       /\ count is_handler (trace_of r) = 0%nat
     else count is_handler (trace_of r) = 1%nat)
  /\ (forall req,
     let id := NodeUnpublishVolumeId req in
     let r := exec (nodeUnpublishVolume req info handler) i w in
     held (lockOf (idLockPtr id) i) = false ->
     inErr (idLockPtr id) (FullMethod info) i = false ->
     precheckPasses i id w ->
     IsNodePublished id None (NodeUnpublishTargetPath req) (afterPrecheck i id w)
     = ((ok, None), w1) ->
     if ok : bool then count is_handler (trace_of r) = 1%nat
     else
       outcome_of r
       = Returned (NodeUnpublishVolumeResponse_ptr (Some (mkResponse (Some
           (Response_Result_ Build_NodeUnpublishVolumeResponse_Result))))) None
       /\ count is_handler (trace_of r) = 0%nat).
Proof.
  split; intros req id r Hfree Hclean Hpre Hq; subst id r;
    decision_setup i Hpre Hq; destruct ok; decision_finish.
Qed.

(** X16.  A DeleteVolume with the lock taken and the method not in error
    looks the volume up by ID.  If the volume is there, the handler is
    invoked, and these are the two calls made; if it is not and the
    require-volume option is off, the call returns success after the lookup
    alone: deleting a volume that is gone is no error. *)
Theorem deleteVolume_decision i w req info handler volInfo w1 :
  let id := DeleteVolumeId req in
  let r := exec (deleteVolume req info handler) i w in
  held (lockOf (idLockPtr id) i) = false ->
  inErr (idLockPtr id) (FullMethod info) i = false ->
  GetVolumeInfo id "" w = ((volInfo, None), w1) ->
  match volInfo with
  | Some _ => count is_handler (trace_of r) = 1%nat /\ length (trace_of r) = 2%nat
  | None =>
      requireVolume (opts i) = false ->
      outcome_of r
      = Returned (DeleteVolumeResponse_ptr (Some (mkResponse (Some
          (Response_Result_ Build_DeleteVolumeResponse_Result))))) None
      /\ trace_of r = [EvGetVolumeInfo id "" None None]
  end.
Proof.
  intros id r Hfree Hclean Hq; subst id r.
  destruct volInfo; [|intros Hrv]; try destruct (requireVolume (opts i)) eqn:?;
    decision_finish.
Qed.

End InterceptorInvariants.


(* ===================================================================== *)
(** ** The mock service: listing, deleting and publishing volumes         *)
(* ===================================================================== *)

Section MockVolumes.
Import service.
#[local] Open Scope Z_scope.
#[local] Open Scope list_scope.
Context (findVolNoLock : service -> string -> string -> Z * VolumeInfo).
Context (path_Join : string -> string -> string).

Lemma ParseUint_FormatUint n bits :
  0 <= n < 2 ^ bits -> ParseUint (FormatUint n) bits = Some n.
Proof.
  intros Hn. unfold ParseUint.
  rewrite bool_decide_eq_false_2 by apply FormatUint_nonempty.
  unfold FormatUint. rewrite NilEmpty.usu, DecimalN.Unsigned.of_to.
  rewrite Z2N.id by lia. destruct (Z.ltb_spec n (2 ^ bits)); [done|lia].
Qed.

(** Following the tokens from volume [t] on lists the volumes from [t]. *)
Lemma listAll_from fuel : forall s maxEntries token t,
  let n := Z.of_nat (length (vols s)) in
  n < 2 ^ 32 -> 0 < maxEntries ->
  (token = "" /\ t = 0 \/ ParseUint token 32 = Some t) ->
  t <= n ->
  (n - t < Z.of_nat fuel) ->
  listAll fuel s maxEntries token = Some (entryOf <$> drop (Z.to_nat t) (vols s)).
Proof.
  induction fuel as [|fuel IH]; intros s maxEntries token t n Hn Hmax Htok Ht Hfuel; [lia|].
  assert (Hrange : 0 <= t).
  { destruct Htok as [[_ ->]|Hp]; [lia|apply ParseUint_range in Hp; lia]. }
  cbn [listAll].
  pose proof (ListVolumes_from s maxEntries token t) as HL. cbv zeta in HL.
  rewrite HL; [|done|done|done|lia]. clear HL.
  fold n. cbn [Reply NextToken Entries].
  set (k := if (maxEntries =? 0) || (n - t <? maxEntries) then n - t else maxEntries).
  assert (Hk : 0 <= k <= n - t /\ (k = n - t \/ 0 < k)).
  { subst k. destruct (Z.eqb_spec maxEntries 0); cbn; [lia|].
    destruct (Z.ltb_spec (n - t) maxEntries); lia. }
  destruct (Z.ltb_spec (t + k) n) as [Hlt|Hge].
  - rewrite bool_decide_eq_false_2 by apply FormatUint_nonempty.
    rewrite (IH s maxEntries _ (t + k)); [|done|done| |lia|fold n; lia].
    2:{ right. apply ParseUint_FormatUint. lia. }
    cbn [mbind option_bind]. f_equal. rewrite <- fmap_app. f_equal.
    replace (Z.to_nat (t + k)) with (Z.to_nat t + Z.to_nat k)%nat by lia.
    rewrite <- drop_drop. apply take_drop.
  - rewrite bool_decide_eq_true_2 by done. f_equal. f_equal.
    apply take_ge. rewrite length_drop. lia.
Qed.

(** [copy(s[i:], s[i+1:])] moves the elements after [i] one place down and
    leaves the last element in place. *)
Lemma copy_shift {A} (l : list A) (i : nat) :
  (i < length l)%nat ->
  exists x, take i l ++ copy (drop i l) (drop (S i) l) = delete i l ++ [x].
Proof.
  intros Hi.
  destruct (drop (length l - 1) l) as [|x [|y r]] eqn:Hd.
  - apply (f_equal length) in Hd. rewrite length_drop in Hd. cbn in Hd. lia.
  - exists x. unfold copy. cbv zeta. rewrite !length_drop.
    replace ((length l - i) `min` (length l - S i))%nat with (length l - S i)%nat by lia.
    rewrite (take_ge (drop (S i) l)) by (rewrite length_drop; lia).
    rewrite drop_drop.
    replace (i + (length l - S i))%nat with (length l - 1)%nat by lia.
    rewrite Hd, delete_take_drop. by rewrite <- app_assoc.
  - apply (f_equal length) in Hd. rewrite length_drop in Hd. cbn in Hd. lia.
Qed.

Lemma store_in_range {A} (l : list A) k x :
  0 <= k < Z.of_nat (length l) -> store l k x = Some (<[Z.to_nat k := x]> l).
Proof.
  intros Hk. unfold store.
  destruct (Z.leb_spec 0 k); [|lia].
  by destruct (Z.ltb_spec k (Z.of_nat (length l))); [|lia].
Qed.

Lemma lookup_in_range {A} (l : list A) i x :
  0 <= i -> l !! Z.to_nat i = Some x -> 0 <= i < Z.of_nat (length l).
Proof. intros Hi Hl. apply lookup_lt_Some in Hl. lia. Qed.

(** X17.  On a service with fewer than 2^32 volumes, a client that pages
    through ListVolumes with any positive page size, from the empty token
    and following NextToken until it is empty, makes at most one request per
    volume and one more, and receives every volume exactly once, in the
    order of the service's slice. *)
Theorem listAll_complete s maxEntries :
  Z.of_nat (length (vols s)) < 2 ^ 32 -> 0 < maxEntries ->
  listAll (S (length (vols s))) s maxEntries "" = Some (entryOf <$> vols s).
Proof.
  intros Hn Hmax.
  rewrite (listAll_from _ s maxEntries "" 0); [done|done|done|by left|lia|lia].
Qed.

(** X18.  After a CreateVolume, paging through ListVolumes yields the
    volumes that were there before, in their order, followed by the volume
    the CreateVolume replied with. *)
Theorem CreateVolume_then_listAll s req maxEntries :
  Z.of_nat (length (vols s)) + 1 < 2 ^ 32 -> 0 < maxEntries ->
  exists v,
    (CreateVolume s req).1
    = (Some (mkResponse (Some (Response_Result_ {| VolumeInfo_ := Some v |}))), None)
    /\ listAll (S (S (length (vols s)))) (CreateVolume s req).2 maxEntries ""
       = Some ((entryOf <$> vols s) ++ [entryOf v]).
Proof.
  intros Hn Hmax. unfold CreateVolume, newVolume. cbn [fst snd vols nodeID volsNID].
  eexists. split; [reflexivity|].
  rewrite (listAll_from _ _ maxEntries "" 0); cbn [vols].
  - by rewrite drop_0, fmap_app.
  - rewrite length_app. cbn [length]. lia.
  - done.
  - by left.
  - lia.
  - rewrite length_app. cbn [length]. lia.
Qed.

(** X19.  DeleteVolume removes from the volume slice exactly the element
    at the index [findVolNoLock] answers, keeps the other volumes in their
    order, and replies with an empty result; it changes nothing else of the
    service.  When the index is not one of the slice (negative, or the
    length or more), the call panics. *)
Theorem DeleteVolume_removes s req :
  let i := (findVolNoLock s "id" (DeleteVolumeId req)).1 in
  DeleteVolume findVolNoLock s req =
    if (0 <=? i) && (i <? Z.of_nat (length (vols s))) then
      Some ((resultReply Build_DeleteVolumeResponse_Result, None),
            mkService (nodeID s) (delete (Z.to_nat i) (vols s)) (volsNID s))
    else None.
Proof.
  unfold DeleteVolume. destruct (findVolNoLock _ _ _) as [i v]. cbn [fst].
  unfold slice_from.
  destruct (Z.leb_spec 0 i) as [H0|H0]; cbn [andb]; [|done].
  destruct (Z.ltb_spec i (Z.of_nat (length (vols s)))) as [Hi|Hi].
  - destruct (Z.leb_spec i (Z.of_nat (length (vols s)))); [|lia].
    destruct (Z.leb_spec 0 (i + 1)); [|lia].
    destruct (Z.leb_spec (i + 1) (Z.of_nat (length (vols s)))); [|lia].
    cbn [andb mbind option_bind].
    replace (Z.to_nat (i + 1)) with (S (Z.to_nat i)) by lia.
    destruct (copy_shift (vols s) (Z.to_nat i)) as [x Hx]; [lia|].
    rewrite Hx.
    assert (Hlen : length (delete (Z.to_nat i) (vols s)) = (length (vols s) - 1)%nat).
    { rewrite length_delete; [done|]. apply lookup_lt_is_Some_2. lia. }
    unfold store. rewrite length_app, Hlen. cbn [length].
    destruct (Z.leb_spec 0 (Z.of_nat (length (vols s) - 1 + 1) - 1)); [|lia].
    destruct (Z.ltb_spec (Z.of_nat (length (vols s) - 1 + 1) - 1)
                (Z.of_nat (length (vols s) - 1 + 1))); [|lia].
    cbn [andb mbind option_bind]. unfold slice_to.
    rewrite length_insert, length_app, Hlen. cbn [length].
    destruct (Z.leb_spec 0 (Z.of_nat (length (vols s) - 1 + 1) - 1)); [|lia].
    destruct (Z.leb_spec (Z.of_nat (length (vols s) - 1 + 1) - 1)
                (Z.of_nat (length (vols s) - 1 + 1))); [|lia].
    cbn [andb mbind option_bind]. do 3 f_equal.
    replace (Z.to_nat (Z.of_nat (length (vols s) - 1 + 1) - 1))
      with (length (delete (Z.to_nat i) (vols s)) + 0)%nat by lia.
    rewrite insert_app_r. cbn. rewrite take_app_length'; [done|lia].
  - destruct (Z.leb_spec i (Z.of_nat (length (vols s)))); cbn [andb mbind option_bind]; [|done].
    destruct (Z.leb_spec 0 (i + 1)); [|lia].
    destruct (Z.leb_spec (i + 1) (Z.of_nat (length (vols s)))); [lia|]. done.
Qed.

(** X20.  The mock's ControllerPublishVolume is idempotent.  Where
    [findVolNoLock] answers a volume of the slice with its index, and the
    volume has attributes, the call replies with the device ["/dev/mock"];
    a second call with the same request, for which the search answers the
    same index and the volume now there, gives the same reply and leaves
    the service as the first call left it. *)
Theorem mock_ControllerPublishVolume_twice s req i v m :
  findVolNoLock s "id" (ControllerPublishVolumeId req) = (i, v) ->
  0 <= i -> vols s !! Z.to_nat i = Some v -> Attributes v = Some m ->
  let rep := resultReply {| PublishVolumeInfo := Some {[ "device" := "/dev/mock" ]} |} in
  exists s1,
    ControllerPublishVolume findVolNoLock path_Join s req = Some ((rep, None), s1)
    /\ ((forall v1, vols s1 !! Z.to_nat i = Some v1 ->
           findVolNoLock s1 "id" (ControllerPublishVolumeId req) = (i, v1)) ->
        ControllerPublishVolume findVolNoLock path_Join s1 req = Some ((rep, None), s1)).
Proof.
  intros Hfind Hi Hv Hm rep.
  pose proof (lookup_in_range _ _ _ Hi Hv) as Hr.
  unfold ControllerPublishVolume at 1. rewrite Hfind. unfold setAttribute. rewrite Hm.
  cbn [mbind option_bind]. rewrite store_in_range by done. cbn [mbind option_bind].
  eexists. split.
  { unfold getAttribute. cbn [Attributes mbind option_bind].
    by rewrite lookup_insert_eq. }
  intros Hfind1. unfold ControllerPublishVolume.
  rewrite (Hfind1 _ (list_lookup_insert_eq (vols s) (Z.to_nat i) _ ltac:(lia))).
  unfold setAttribute. cbn [Attributes mbind option_bind vols].
  rewrite store_in_range by (rewrite length_insert; lia).
  cbn [mbind option_bind CapacityBytes Id nodeID volsNID].
  unfold getAttribute. cbn [Attributes mbind option_bind].
  rewrite lookup_insert_eq, insert_insert_eq, list_insert_insert_eq. done.
Qed.

(** X21.  The mock's ControllerUnpublishVolume undoes its
    ControllerPublishVolume.  Where [findVolNoLock] answers a volume of the
    slice with its index, and the volume has attributes without the node's
    device key, the publish succeeds; an unpublish for the same volume and
    node, for which the search answers the same index and the volume now
    there, succeeds and leaves the service exactly as it was before the
    publish. *)
Theorem mock_ControllerPublish_Unpublish s id node i v m :
  findVolNoLock s "id" id = (i, v) ->
  0 <= i -> vols s !! Z.to_nat i = Some v ->
  Attributes v = Some m -> m !! path_Join node "dev" = None ->
  exists rep s1,
    ControllerPublishVolume findVolNoLock path_Join s
      {| ControllerPublishVolumeId := id; ControllerPublishNodeId := node |}
    = Some ((rep, None), s1)
    /\ ((forall v1, vols s1 !! Z.to_nat i = Some v1 -> findVolNoLock s1 "id" id = (i, v1)) ->
        ControllerUnpublishVolume findVolNoLock path_Join s1
          {| ControllerUnpublishVolumeId := id; ControllerUnpublishNodeId := node |}
        = Some ((resultReply Build_ControllerUnpublishVolumeResponse_Result, None), s)).
Proof.
  intros Hfind Hi Hv Hm Hk.
  pose proof (lookup_in_range _ _ _ Hi Hv) as Hr.
  unfold ControllerPublishVolume.
  cbn [ControllerPublishVolumeId ControllerPublishNodeId].
  rewrite Hfind. unfold setAttribute. rewrite Hm.
  cbn [mbind option_bind]. rewrite store_in_range by done. cbn [mbind option_bind].
  eexists _, _. split; [reflexivity|].
  intros Hfind1. unfold ControllerUnpublishVolume.
  cbn [ControllerUnpublishVolumeId ControllerUnpublishNodeId].
  rewrite (Hfind1 _ (list_lookup_insert_eq (vols s) (Z.to_nat i) _ ltac:(lia))).
  unfold deleteAttribute. cbn [Attributes fmap option_fmap option_map vols CapacityBytes Id].
  rewrite store_in_range by (rewrite length_insert; lia).
  cbn [mbind option_bind nodeID volsNID].
  rewrite list_insert_insert_eq, delete_insert_eq, (delete_id _ _ Hk).
  rewrite <- Hm. destruct v, s. cbn in *. by rewrite list_insert_id.
Qed.

(** X22.  The mock's NodeUnpublishVolume undoes its NodePublishVolume.
    Where the request's publish info has a ["device"] key, [findVolNoLock]
    answers a volume of the slice with its index, and the volume has
    attributes without the key of the node's mount path, the publish
    succeeds; an unpublish for the same volume and target path, for which
    the search answers the same index and the volume now there, succeeds and
    leaves the service exactly as it was before the publish. *)
Theorem mock_NodePublish_Unpublish s id target info device i v m :
  info ≫= (.!! "device") = Some device ->
  findVolNoLock s "id" id = (i, v) ->
  0 <= i -> vols s !! Z.to_nat i = Some v ->
  Attributes v = Some m -> m !! path_Join (nodeID s) target = None ->
  exists s1,
    NodePublishVolume findVolNoLock path_Join s
      {| NodePublishVolumeId := id; NodePublishVolumeInfo := info;
         NodePublishTargetPath := target |}
    = Some ((resultReply Build_NodePublishVolumeResponse_Result, None), s1)
    /\ ((forall v1, vols s1 !! Z.to_nat i = Some v1 -> findVolNoLock s1 "id" id = (i, v1)) ->
        NodeUnpublishVolume findVolNoLock path_Join s1
          {| NodeUnpublishVolumeId := id; NodeUnpublishTargetPath := target |}
        = Some ((resultReply Build_NodeUnpublishVolumeResponse_Result, None), s)).
Proof.
  intros Hdev Hfind Hi Hv Hm Hk.
  pose proof (lookup_in_range _ _ _ Hi Hv) as Hr.
  unfold NodePublishVolume.
  cbn [NodePublishVolumeId NodePublishVolumeInfo NodePublishTargetPath].
  rewrite Hdev, Hfind. unfold setAttribute. rewrite Hm.
  cbn [mbind option_bind]. rewrite store_in_range by done. cbn [mbind option_bind].
  eexists. split; [reflexivity|].
  intros Hfind1. unfold NodeUnpublishVolume.
  cbn [NodeUnpublishVolumeId NodeUnpublishTargetPath nodeID].
  rewrite (Hfind1 _ (list_lookup_insert_eq (vols s) (Z.to_nat i) _ ltac:(lia))).
  unfold deleteAttribute. cbn [Attributes fmap option_fmap option_map vols CapacityBytes Id].
  rewrite store_in_range by (rewrite length_insert; lia).
  cbn [mbind option_bind nodeID volsNID].
  rewrite list_insert_insert_eq, delete_insert_eq, (delete_id _ _ Hk).
  rewrite <- Hm. destruct v, s. cbn in *. by rewrite list_insert_id.
Qed.

(** X23.  The publish info a ControllerPublishVolume of the mock replies
    with is accepted by its NodePublishVolume: a NodePublishVolume that is
    given that info and returns, on any state of the service, does not reply
    with the missing-device error, and it stores the controller's device
    ["/dev/mock"] under the key of the node's mount path in a volume of the
    slice. *)
Theorem mock_controller_info_accepted_by_node s req rep err s1 :
  ControllerPublishVolume findVolNoLock path_Join s req = Some ((rep, err), s1) ->
  exists r, GetResult rep = Some r
    /\ forall s2 nreq nrep nerr s3,
         NodePublishVolumeInfo nreq = PublishVolumeInfo r ->
         NodePublishVolume findVolNoLock path_Join s2 nreq = Some ((nrep, nerr), s3) ->
         GetError nrep = None
         /\ exists i v, vols s3 !! i = Some v
              /\ getAttribute v (path_Join (nodeID s2) (NodePublishTargetPath nreq))
                 = "/dev/mock".
Proof.
  unfold ControllerPublishVolume. destruct (findVolNoLock s _ _) as [i v].
  unfold setAttribute. destruct (Attributes v) as [m|]; [|done].
  cbn [mbind option_bind]. destruct (store _ _ _) as [vols'|]; [|done].
  cbn [mbind option_bind]. intros [= <- <- <-].
  eexists. split; [reflexivity|].
  intros s2 nreq nrep nerr s3 Hinfo. unfold NodePublishVolume. rewrite Hinfo.
  cbn [PublishVolumeInfo mbind option_bind]. rewrite lookup_singleton_eq.
  destruct (findVolNoLock s2 _ _) as [j w].
  unfold setAttribute. destruct (Attributes w) as [mw|]; [|done].
  cbn [mbind option_bind]. unfold store.
  destruct (Z.leb_spec 0 j); cbn [andb]; [|done].
  destruct (Z.ltb_spec j (Z.of_nat (length (vols s2)))); [|done].
  cbn [mbind option_bind]. intros [= <- <- <-]. split; [done|].
  eexists (Z.to_nat j), _. cbn [vols].
  rewrite list_lookup_insert_eq by lia. split; [reflexivity|].
  unfold getAttribute. cbn [Attributes mbind option_bind].
  by rewrite !lookup_insert_eq.
Qed.

End MockVolumes.


(** *** The properties at concrete collaborators *)

(** X2 at a failing ControllerPublishVolume of ["v1"], whose lock carries
    the mark of an earlier failed DeleteVolume: that mark stays. *)
Lemma handle_marks_only_its_method_witness :
  let req := ControllerPublishVolumeRequest_ptr scenarios.publishV1 in
  let i := scenarios.failedDeleteInterceptor in
  scenarios.DeleteVolumeMethod ≠ FullMethod scenarios.publishInfo
  /\ (scenarios.DeleteVolumeMethod
        ∈ methodInErr (lockOf (idLockPtr "v1")
            (icpt_of (exec (handle (p := scenarios.v1Provider) req scenarios.publishInfo
                              scenarios.failingHandler) i tt)))
      <-> scenarios.DeleteVolumeMethod ∈ methodInErr (lockOf (idLockPtr "v1") i)).
Proof.
  intros req i.
  assert (H : scenarios.DeleteVolumeMethod ≠ FullMethod scenarios.publishInfo)
    by (vm_compute; discriminate).
  split; [exact H|].
  exact (handle_marks_only_its_method (p := scenarios.v1Provider)
           req scenarios.publishInfo scenarios.failingHandler i tt (idLockPtr "v1")
           scenarios.DeleteVolumeMethod H).
Defined.

(** X4 at a failing DeleteVolume of ["v1"] and the lock record of the name
    ["alpha"], which carries a mark. *)
Lemma handle_frame_witness :
  let req := DeleteVolumeRequest_ptr scenarios.deleteV1 in
  let i := scenarios.poisonedInterceptor in
  (isCreateVolume req = false /\ lockKey req ≠ Some (nameLockPtr "alpha"))
  /\ lockOf (nameLockPtr "alpha")
       (icpt_of (exec (handle (p := scenarios.v1Provider) req scenarios.deleteInfo
                         scenarios.failingHandler) i tt))
     = lockOf (nameLockPtr "alpha") i.
Proof.
  intros req i.
  assert (H1 : isCreateVolume req = false) by reflexivity.
  assert (H2 : lockKey req ≠ Some (nameLockPtr "alpha")) by (vm_compute; discriminate).
  split; [by split|].
  exact (handle_frame (p := scenarios.v1Provider) req scenarios.deleteInfo
           scenarios.failingHandler i tt (nameLockPtr "alpha") H1 H2).
Defined.

(** X7 at a DeleteVolume of the existing volume ["v1"] that the handler
    carries out. *)
Lemma handle_returns_handler_result_witness :
  let req := DeleteVolumeRequest_ptr scenarios.deleteV1 in
  let r := exec (handle (p := scenarios.v1Provider) req scenarios.deleteInfo
                   scenarios.deleteOkHandler) (NewIdempotentInterceptor []) tt in
  (outcome_of r = Returned scenarios.deleteOkReply None
   /\ EvHandler req scenarios.deleteOkReply None ∈ trace_of r)
  /\ scenarios.deleteOkReply = scenarios.deleteOkReply /\ @None error = None.
Proof.
  intros req r.
  assert (H1 : outcome_of r = Returned scenarios.deleteOkReply None)
    by (vm_compute; reflexivity).
  assert (H2 : EvHandler req scenarios.deleteOkReply None ∈ trace_of r)
    by (vm_compute; repeat constructor).
  split; [by split|].
  exact (handle_returns_handler_result (p := scenarios.v1Provider) req scenarios.deleteInfo
           scenarios.deleteOkHandler (NewIdempotentInterceptor []) tt
           scenarios.deleteOkReply None req scenarios.deleteOkReply None H1 H2).
Defined.

(** X8 at a DeleteVolume of ["v1"] with a provider whose queries fail. *)
Lemma handle_provider_error_witness :
  let req := DeleteVolumeRequest_ptr scenarios.deleteV1 in
  let i := NewIdempotentInterceptor [] in
  let ev := EvGetVolumeInfo "v1" "" None (Some "provider unavailable") in
  let r := exec (handle (p := scenarios.failingProvider) req scenarios.deleteInfo
                   scenarios.deleteOkHandler) i tt in
  (isCreateVolume req = false
   /\ lockKey req = Some (idLockPtr "v1")
   /\ ev ∈ trace_of r
   /\ event_error ev = Some "provider unavailable")
  /\ outcome_of r = Returned nil_iface (Some "provider unavailable")
  /\ count is_handler (trace_of r) = 0%nat
  /\ lockOf (idLockPtr "v1") (icpt_of r)
     = mkVolLockInfo false
         ({[FullMethod scenarios.deleteInfo]} ∪ methodInErr (lockOf (idLockPtr "v1") i)).
Proof.
  intros req i ev r.
  assert (H1 : isCreateVolume req = false) by reflexivity.
  assert (H2 : lockKey req = Some (idLockPtr "v1")) by reflexivity.
  assert (H3 : ev ∈ trace_of r) by (vm_compute; repeat constructor).
  assert (H4 : event_error ev = Some "provider unavailable") by reflexivity.
  split; [done|].
  exact (handle_provider_error (p := scenarios.failingProvider) req scenarios.deleteInfo
           scenarios.deleteOkHandler i tt ev "provider unavailable" (idLockPtr "v1")
           H1 H2 H3 H4).
Defined.

(** X9 at a ControllerPublishVolume of ["v1"] on an interceptor made
    without options. *)
Lemma handle_no_precheck_witness :
  let req := ControllerPublishVolumeRequest_ptr scenarios.publishV1 in
  let i := NewIdempotentInterceptor [] in
  requireVolume (opts i) = false
  /\ count is_GetVolumeInfo
       (trace_of (exec (handle (p := scenarios.publishingProvider) req scenarios.publishInfo
                          scenarios.publishingHandler) i false))
     = 0%nat.
Proof.
  intros req i.
  assert (H : requireVolume (opts i) = false) by reflexivity.
  split; [exact H|].
  exact (handle_no_precheck (p := scenarios.publishingProvider) req scenarios.publishInfo
           scenarios.publishingHandler i false H).
Defined.

(** X10 at a CreateVolume of ["alpha"], which the provider resolves to
    ["v1"], and the ID lock of another volume, ["v2"]. *)
Lemma createVolume_id_table_witness :
  let i := scenarios.failedDeleteInterceptor in
  let r := exec (createVolume (p := scenarios.alphaProvider) scenarios.createAlpha
                   scenarios.createInfo scenarios.failingHandler) i tt in
  (forall v, head (trace_of r)
             = Some (EvGetVolumeInfo "" (Name scenarios.createAlpha) (Some v) None) ->
             Id v ≠ "v2")
  /\ lockOf (idLockPtr "v2") (icpt_of r) = lockOf (idLockPtr "v2") i.
Proof.
  intros i r.
  assert (H : forall v, head (trace_of r)
                = Some (EvGetVolumeInfo "" (Name scenarios.createAlpha) (Some v) None) ->
                Id v ≠ "v2").
  { intros v Hv. vm_compute in Hv. injection Hv as <-. vm_compute. discriminate. }
  split; [exact H|].
  exact (createVolume_id_table (p := scenarios.alphaProvider) scenarios.createAlpha
           scenarios.createInfo scenarios.failingHandler i tt "v2" H).
Defined.

(** X11 at a DeleteVolume of the existing volume ["v1"] whose handler
    fails: the method is marked on the released lock. *)
Lemma handle_exit_marks_witness :
  let req := DeleteVolumeRequest_ptr scenarios.deleteV1 in
  let i := NewIdempotentInterceptor [] in
  let res := nil_iface in
  let err := Some "rpc error: code = Internal" in
  let r := exec (handle (p := scenarios.v1Provider) req scenarios.deleteInfo
                   scenarios.failingHandler) i tt in
  (isCreateVolume req = false
   /\ lockKey req = Some (idLockPtr "v1")
   /\ held (lockOf (idLockPtr "v1") i) = false
   /\ outcome_of r = Returned res err)
  /\ lockOf (idLockPtr "v1") (icpt_of r)
     = mkVolLockInfo false
         (if callFailed res err
          then {[FullMethod scenarios.deleteInfo]} ∪ methodInErr (lockOf (idLockPtr "v1") i)
          else methodInErr (lockOf (idLockPtr "v1") i) ∖ {[FullMethod scenarios.deleteInfo]}).
Proof.
  intros req i res err r.
  assert (H1 : isCreateVolume req = false) by reflexivity.
  assert (H2 : lockKey req = Some (idLockPtr "v1")) by reflexivity.
  assert (H3 : held (lockOf (idLockPtr "v1") i) = false) by reflexivity.
  assert (H4 : outcome_of r = Returned res err) by (vm_compute; reflexivity).
  split; [done|].
  exact (handle_exit_marks (p := scenarios.v1Provider) req scenarios.deleteInfo
           scenarios.failingHandler i tt (idLockPtr "v1") res err H1 H2 H3 H4).
Defined.

(** X12 at a CreateVolume of ["alpha"], whose name lock is free and
    carries the method's mark. *)
Lemma handle_bypass_witness :
  let req := CreateVolumeRequest_ptr scenarios.createAlpha in
  let i := scenarios.poisonedInterceptor in
  let handler := scenarios.pendingHandler in
  (lockKey req = Some (nameLockPtr "alpha")
   /\ held (lockOf (nameLockPtr "alpha") i) = false
   /\ inErr (nameLockPtr "alpha") (FullMethod scenarios.createInfo) i = true)
  /\ trace_of (exec (handle (p := scenarios.alphaProvider) req scenarios.createInfo handler)
                 i tt)
     = [EvHandler req (handler req tt).1.1 (handler req tt).1.2].
Proof.
  intros req i handler.
  assert (H1 : lockKey req = Some (nameLockPtr "alpha")) by reflexivity.
  assert (H2 : held (lockOf (nameLockPtr "alpha") i) = false) by (vm_compute; reflexivity).
  assert (H3 : inErr (nameLockPtr "alpha") (FullMethod scenarios.createInfo) i = true)
    by (vm_compute; reflexivity).
  split; [done|].
  exact (handle_bypass (p := scenarios.alphaProvider) req scenarios.createInfo handler
           i tt (nameLockPtr "alpha") H1 H2 H3).
Defined.

(** X13 at two DeleteVolume calls of the existing volume ["v1"], the first
    of which fails downstream. *)
Lemma failure_then_bypass_witness :
  let req := DeleteVolumeRequest_ptr scenarios.deleteV1 in
  let i := NewIdempotentInterceptor [] in
  let res := nil_iface in
  let err := Some "rpc error: code = Internal" in
  let handler' := scenarios.deleteOkHandler in
  let r1 := exec (handle (p := scenarios.v1Provider) req scenarios.deleteInfo
                    scenarios.failingHandler) i tt in
  let r2 := exec (handle (p := scenarios.v1Provider) req scenarios.deleteInfo handler')
              (icpt_of r1) (world_of r1) in
  (isCreateVolume req = false
   /\ lockKey req = Some (idLockPtr "v1")
   /\ held (lockOf (idLockPtr "v1") i) = false
   /\ outcome_of r1 = Returned res err
   /\ callFailed res err = true)
  /\ trace_of r2
     = [EvHandler req (handler' req (world_of r1)).1.1 (handler' req (world_of r1)).1.2].
Proof.
  intros req i res err handler' r1 r2.
  assert (H1 : isCreateVolume req = false) by reflexivity.
  assert (H2 : lockKey req = Some (idLockPtr "v1")) by reflexivity.
  assert (H3 : held (lockOf (idLockPtr "v1") i) = false) by reflexivity.
  assert (H4 : outcome_of r1 = Returned res err) by (vm_compute; reflexivity).
  assert (H5 : callFailed res err = true) by reflexivity.
  split; [done|].
  exact (failure_then_bypass (p := scenarios.v1Provider) req scenarios.deleteInfo
           scenarios.failingHandler handler' i tt (idLockPtr "v1") res err
           H1 H2 H3 H4 H5).
Defined.

(** X14 at a ControllerPublishVolume of ["v1"], which the backend has
    published already. *)
Lemma controller_publish_decisions_witness :
  let req := scenarios.publishV1 in
  let i := scenarios.publishedInterceptor in
  let r := exec (controllerPublishVolume (p := scenarios.publishingProvider) req
                   scenarios.publishInfo scenarios.publishingHandler) i true in
  (held (lockOf (idLockPtr "v1") i) = false
   /\ inErr (idLockPtr "v1") (FullMethod scenarios.publishInfo) i = false
   /\ precheckPasses (p := scenarios.publishingProvider) i "v1" true
   /\ IsControllerPublished (IdempotencyProvider := scenarios.publishingProvider)
        "v1" "node1" (afterPrecheck (p := scenarios.publishingProvider) i "v1" true)
      = ((Some scenarios.mockDevice, None), true))
  /\ outcome_of r
     = Returned (ControllerPublishVolumeResponse_ptr (Some (mkResponse (Some
         (Response_Result_ {| PublishVolumeInfo := Some scenarios.mockDevice |}))))) None
  /\ count is_handler (trace_of r) = 0%nat.
Proof.
  intros req i r.
  assert (H1 : held (lockOf (idLockPtr "v1") i) = false) by (vm_compute; reflexivity).
  assert (H2 : inErr (idLockPtr "v1") (FullMethod scenarios.publishInfo) i = false)
    by (vm_compute; reflexivity).
  assert (H3 : precheckPasses (p := scenarios.publishingProvider) i "v1" true).
  { intros _. exists {| CapacityBytes := 0; Id := "v1"; Attributes := None |}.
    vm_compute. reflexivity. }
  assert (H4 : IsControllerPublished (IdempotencyProvider := scenarios.publishingProvider)
                 "v1" "node1" (afterPrecheck (p := scenarios.publishingProvider) i "v1" true)
               = ((Some scenarios.mockDevice, None), true)) by (vm_compute; reflexivity).
  split; [done|].
  exact (proj1 (controller_publish_decisions (p := scenarios.publishingProvider)
                  i true scenarios.publishInfo scenarios.publishingHandler
                  (Some scenarios.mockDevice) true)
           req H1 H2 H3 H4).
Defined.

(** X15 at a NodePublishVolume of ["v1"], which the provider reports as
    not published: the handler is invoked. *)
Lemma node_publish_decisions_witness :
  let req := scenarios.nodePublishV1 in
  let i := NewIdempotentInterceptor [] in
  let handler := scenarios.constHandler (NodePublishVolumeResponse_ptr None) None in
  let r := exec (nodePublishVolume (p := scenarios.emptyProvider) req
                   scenarios.nodePublishInfo handler) i tt in
  (held (lockOf (idLockPtr "v1") i) = false
   /\ inErr (idLockPtr "v1") (FullMethod scenarios.nodePublishInfo) i = false
   /\ precheckPasses (p := scenarios.emptyProvider) i "v1" tt
   /\ IsNodePublished (IdempotencyProvider := scenarios.emptyProvider)
        "v1" (NodePublishVolumeInfo req) (NodePublishTargetPath req)
        (afterPrecheck (p := scenarios.emptyProvider) i "v1" tt)
      = ((false, None), tt))
  /\ count is_handler (trace_of r) = 1%nat.
Proof.
  intros req i handler r.
  assert (H1 : held (lockOf (idLockPtr "v1") i) = false) by reflexivity.
  assert (H2 : inErr (idLockPtr "v1") (FullMethod scenarios.nodePublishInfo) i = false)
    by reflexivity.
  assert (H3 : precheckPasses (p := scenarios.emptyProvider) i "v1" tt)
    by (intros H; discriminate H).
  assert (H4 : IsNodePublished (IdempotencyProvider := scenarios.emptyProvider)
                 "v1" (NodePublishVolumeInfo req) (NodePublishTargetPath req)
                 (afterPrecheck (p := scenarios.emptyProvider) i "v1" tt)
               = ((false, None), tt)) by reflexivity.
  split; [done|].
  exact (proj1 (node_publish_decisions (p := scenarios.emptyProvider)
                  i tt scenarios.nodePublishInfo handler false tt)
           req H1 H2 H3 H4).
Defined.

(** X16 at a DeleteVolume of a volume the provider does not know, on an
    interceptor made without options. *)
Lemma deleteVolume_decision_witness :
  let req := scenarios.deleteV1 in
  let i := NewIdempotentInterceptor [] in
  let r := exec (deleteVolume (p := scenarios.emptyProvider) req scenarios.deleteInfo
                   scenarios.failingHandler) i tt in
  (held (lockOf (idLockPtr "v1") i) = false
   /\ inErr (idLockPtr "v1") (FullMethod scenarios.deleteInfo) i = false
   /\ GetVolumeInfo (IdempotencyProvider := scenarios.emptyProvider) "v1" "" tt
      = ((None, None), tt)
   /\ requireVolume (opts i) = false)
  /\ outcome_of r
     = Returned (DeleteVolumeResponse_ptr (Some (mkResponse (Some
         (Response_Result_ Build_DeleteVolumeResponse_Result))))) None
  /\ trace_of r = [EvGetVolumeInfo "v1" "" None None].
Proof.
  intros req i r.
  assert (H1 : held (lockOf (idLockPtr "v1") i) = false) by reflexivity.
  assert (H2 : inErr (idLockPtr "v1") (FullMethod scenarios.deleteInfo) i = false)
    by reflexivity.
  assert (H3 : GetVolumeInfo (IdempotencyProvider := scenarios.emptyProvider) "v1" "" tt
               = ((None, None), tt)) by reflexivity.
  assert (H4 : requireVolume (opts i) = false) by reflexivity.
  split; [done|].
  exact (deleteVolume_decision (p := scenarios.emptyProvider) i tt req scenarios.deleteInfo
           scenarios.failingHandler None tt H1 H2 H3 H4).
Defined.

(** X17 at the mock service's three volumes, listed two at a time. *)
Lemma listAll_complete_witness :
  let s := scenarios.mockService in
  ((Z.of_nat (length (service.vols s)) < 2 ^ 32)%Z /\ (0 < 2)%Z)
  /\ service.listAll (S (length (service.vols s))) s 2 ""
     = Some (service.entryOf <$> service.vols s).
Proof.
  intros s.
  assert (H1 : (Z.of_nat (length (service.vols s)) < 2 ^ 32)%Z) by (vm_compute; reflexivity).
  assert (H2 : (0 < 2)%Z) by lia.
  split; [by split|].
  exact (listAll_complete s 2 H1 H2).
Defined.

(** X18 at a CreateVolume of ["alpha"] on the mock service's three
    volumes. *)
Lemma CreateVolume_then_listAll_witness :
  let s := scenarios.mockService in
  let req := scenarios.createAlpha in
  ((Z.of_nat (length (service.vols s)) + 1 < 2 ^ 32)%Z /\ (0 < 2)%Z)
  /\ exists v,
       (service.CreateVolume s req).1
       = (Some (mkResponse (Some (Response_Result_ {| VolumeInfo_ := Some v |}))), None)
       /\ service.listAll (S (S (length (service.vols s)))) (service.CreateVolume s req).2
            2 ""
          = Some ((service.entryOf <$> service.vols s) ++ [service.entryOf v])%list.
Proof.
  intros s req.
  assert (H1 : (Z.of_nat (length (service.vols s)) + 1 < 2 ^ 32)%Z)
    by (vm_compute; reflexivity).
  assert (H2 : (0 < 2)%Z) by lia.
  split; [by split|].
  exact (CreateVolume_then_listAll s req 2 H1 H2).
Defined.

(** X20 at a ControllerPublishVolume of the mock service's volume ["1"],
    with a search of the slice by volume ID. *)
Lemma mock_ControllerPublishVolume_twice_witness :
  let s := scenarios.mockService in
  let req := scenarios.mockPublishV1 in
  let find := scenarios.findById in
  let v := scenarios.mockVolume "1" in
  let m : gmap string string := {[ "name" := "Mock Volume 1" ]} in
  let rep := service.resultReply
               {| PublishVolumeInfo := Some {[ "device" := "/dev/mock" ]} |} in
  (find s "id" (ControllerPublishVolumeId req) = (0%Z, v)
   /\ (0 <= 0)%Z
   /\ service.vols s !! Z.to_nat 0 = Some v
   /\ Attributes v = Some m)
  /\ exists s1,
       service.ControllerPublishVolume find scenarios.pathJoin s req = Some ((rep, None), s1)
       /\ ((forall v1, service.vols s1 !! Z.to_nat 0 = Some v1 ->
              find s1 "id" (ControllerPublishVolumeId req) = (0%Z, v1)) ->
           service.ControllerPublishVolume find scenarios.pathJoin s1 req
           = Some ((rep, None), s1)).
Proof.
  intros s req find v m rep.
  assert (H1 : find s "id" (ControllerPublishVolumeId req) = (0%Z, v))
    by (vm_compute; reflexivity).
  assert (H2 : (0 <= 0)%Z) by lia.
  assert (H3 : service.vols s !! Z.to_nat 0 = Some v) by reflexivity.
  assert (H4 : Attributes v = Some m) by reflexivity.
  split; [done|].
  exact (mock_ControllerPublishVolume_twice find scenarios.pathJoin s req 0%Z v m
           H1 H2 H3 H4).
Defined.

(** X21 at a publish of the mock service's volume ["1"] to ["node1"]. *)
Lemma mock_ControllerPublish_Unpublish_witness :
  let s := scenarios.mockService in
  let find := scenarios.findById in
  let join := scenarios.pathJoin in
  let v := scenarios.mockVolume "1" in
  let m : gmap string string := {[ "name" := "Mock Volume 1" ]} in
  (find s "id" "1" = (0%Z, v)
   /\ (0 <= 0)%Z
   /\ service.vols s !! Z.to_nat 0 = Some v
   /\ Attributes v = Some m
   /\ m !! join "node1" "dev" = None)
  /\ exists rep s1,
       service.ControllerPublishVolume find join s
         {| ControllerPublishVolumeId := "1"; ControllerPublishNodeId := "node1" |}
       = Some ((rep, None), s1)
       /\ ((forall v1, service.vols s1 !! Z.to_nat 0 = Some v1 ->
              find s1 "id" "1" = (0%Z, v1)) ->
           service.ControllerUnpublishVolume find join s1
             {| ControllerUnpublishVolumeId := "1"; ControllerUnpublishNodeId := "node1" |}
           = Some ((service.resultReply Build_ControllerUnpublishVolumeResponse_Result,
                    None), s)).
Proof.
  intros s find join v m.
  assert (H1 : find s "id" "1" = (0%Z, v)) by (vm_compute; reflexivity).
  assert (H2 : (0 <= 0)%Z) by lia.
  assert (H3 : service.vols s !! Z.to_nat 0 = Some v) by reflexivity.
  assert (H4 : Attributes v = Some m) by reflexivity.
  assert (H5 : m !! join "node1" "dev" = None) by (vm_compute; reflexivity).
  split; [done|].
  exact (mock_ControllerPublish_Unpublish find join s "1" "node1" 0%Z v m
           H1 H2 H3 H4 H5).
Defined.

(** X22 at a node publish of the mock service's volume ["1"] at
    ["/mnt/v1"]. *)
Lemma mock_NodePublish_Unpublish_witness :
  let s := scenarios.mockService in
  let find := scenarios.findById in
  let join := scenarios.pathJoin in
  let v := scenarios.mockVolume "1" in
  let m : gmap string string := {[ "name" := "Mock Volume 1" ]} in
  let info : gomap := Some scenarios.mockDevice in
  (info ≫= (.!! "device") = Some "/dev/mock"
   /\ find s "id" "1" = (0%Z, v)
   /\ (0 <= 0)%Z
   /\ service.vols s !! Z.to_nat 0 = Some v
   /\ Attributes v = Some m
   /\ m !! join (service.nodeID s) "/mnt/v1" = None)
  /\ exists s1,
       service.NodePublishVolume find join s
         {| NodePublishVolumeId := "1"; NodePublishVolumeInfo := info;
            NodePublishTargetPath := "/mnt/v1" |}
       = Some ((service.resultReply Build_NodePublishVolumeResponse_Result, None), s1)
       /\ ((forall v1, service.vols s1 !! Z.to_nat 0 = Some v1 ->
              find s1 "id" "1" = (0%Z, v1)) ->
           service.NodeUnpublishVolume find join s1
             {| NodeUnpublishVolumeId := "1"; NodeUnpublishTargetPath := "/mnt/v1" |}
           = Some ((service.resultReply Build_NodeUnpublishVolumeResponse_Result, None), s)).
Proof.
  intros s find join v m info.
  assert (H0 : info ≫= (.!! "device") = Some "/dev/mock") by (vm_compute; reflexivity).
  assert (H1 : find s "id" "1" = (0%Z, v)) by (vm_compute; reflexivity).
  assert (H2 : (0 <= 0)%Z) by lia.
  assert (H3 : service.vols s !! Z.to_nat 0 = Some v) by reflexivity.
  assert (H4 : Attributes v = Some m) by reflexivity.
  assert (H5 : m !! join (service.nodeID s) "/mnt/v1" = None) by (vm_compute; reflexivity).
  split; [done|].
  exact (mock_NodePublish_Unpublish find join s "1" "/mnt/v1" info "/dev/mock" 0%Z v m
           H0 H1 H2 H3 H4 H5).
Defined.

(** X23 at a ControllerPublishVolume of the mock service's volume ["1"]. *)
Lemma mock_controller_info_accepted_by_node_witness :
  let find := scenarios.findById in
  let join := scenarios.pathJoin in
  let rep := service.resultReply
               {| PublishVolumeInfo := Some {[ "device" := "/dev/mock" ]} |} in
  service.ControllerPublishVolume find join scenarios.mockService scenarios.mockPublishV1
  = Some ((rep, None), scenarios.mockPublishedService)
  /\ exists r, GetResult rep = Some r
       /\ forall s2 nreq nrep nerr s3,
            NodePublishVolumeInfo nreq = PublishVolumeInfo r ->
            service.NodePublishVolume find join s2 nreq = Some ((nrep, nerr), s3) ->
            GetError nrep = None
            /\ exists i v, service.vols s3 !! i = Some v
                 /\ service.getAttribute v
                      (join (service.nodeID s2) (NodePublishTargetPath nreq))
                    = "/dev/mock".
Proof.
  intros find join rep.
  assert (H : service.ControllerPublishVolume find join scenarios.mockService
                scenarios.mockPublishV1
              = Some ((rep, None), scenarios.mockPublishedService))
    by (vm_compute; reflexivity).
  split; [exact H|].
  exact (mock_controller_info_accepted_by_node find join scenarios.mockService
           scenarios.mockPublishV1 rep None scenarios.mockPublishedService H).
Defined.
